(** * Candidate-ai voice front end: audio level, radial renderer, agent
      state and session views

    A shallow embedding of the TypeScript sources

    - [frontend/app/components/hooks/useAudioAnalyzer.ts] (module
      [AudioAnalyzer]),
    - [RadialVisualizer.tsx] (module [RadialVisualizer]),
    - [VoiceAgent.tsx], components [VoiceInterface] and [VoiceAgent]
      (modules [VoiceInterface] and [VoiceAgent]),

    followed by the properties of the specification, each stated on these
    definitions.

    Numbers.  JavaScript numbers are IEEE binary64 values.  The level
    computation is embedded twice, operation for operation: over the real
    numbers, where the formula of the specification is stated, and over
    Rocq's primitive binary64 floats (module [AudioAnalyzer.Binary64]),
    where it can be evaluated and where its bounds are proved from the
    specification of the binary64 operations.  The renderer's geometry is
    over the real numbers. *)

From Stdlib Require Import List Bool Arith ZArith NArith Lia.
From Stdlib Require Import String Ascii.
From Stdlib.Strings Require Import Byte.
From Stdlib Require Import Reals Lra.
From Stdlib Require Uint63.
From Stdlib Require PrimFloat Floats.
From Stdlib Require Import DecimalString.
From Stdlib Require Import Permutation.
Import ListNotations.

Set Implicit Arguments.
Set Warnings "-register-all".

(* ================================================================== *)
(** ** Host actions

    The calls a component makes on its host (Web Audio, the animation
    frame scheduler, the network, the transport room) are recorded as a
    trace of [Action]s, in program order.  [TransportDisconnect] stands
    for a call of [room.disconnect()] and [ClearGuardFlag] for a write
    that clears a connection guard; the specification speaks of both. *)
(* ================================================================== *)

Inductive Loop := SamplerLoop | RenderLoop.

Inductive Action :=
| NewAudioContext
| CreateAnalyser
| CreateMediaStreamSource
| ConnectSource
| RequestAnimationFrame (l : Loop)
| CancelAnimationFrame (l : Loop)
| DisconnectSource
| DisconnectAnalyser
| CloseAudioContext
| RoomOnDataReceived
| RoomOffDataReceived
| FetchToken (roomName : string)  (* GET /api/token?roomName=<roomName>&participantName=user-<Date.now()> *)
| SetTimeout (ms : nat)
| TransportDisconnect
| ClearGuardFlag.

Definition Loop_eqb (a b : Loop) : bool :=
  match a, b with
  | SamplerLoop, SamplerLoop | RenderLoop, RenderLoop => true
  | _, _ => false
  end.

Definition Action_eqb (a b : Action) : bool :=
  match a, b with
  | NewAudioContext, NewAudioContext
  | CreateAnalyser, CreateAnalyser
  | CreateMediaStreamSource, CreateMediaStreamSource
  | ConnectSource, ConnectSource
  | DisconnectSource, DisconnectSource
  | DisconnectAnalyser, DisconnectAnalyser
  | CloseAudioContext, CloseAudioContext
  | RoomOnDataReceived, RoomOnDataReceived
  | RoomOffDataReceived, RoomOffDataReceived
  | TransportDisconnect, TransportDisconnect
  | ClearGuardFlag, ClearGuardFlag => true
  | RequestAnimationFrame l, RequestAnimationFrame l'
  | CancelAnimationFrame l, CancelAnimationFrame l' => Loop_eqb l l'
  | FetchToken u, FetchToken u' => String.eqb u u'
  | SetTimeout m, SetTimeout m' => Nat.eqb m m'
  | _, _ => false
  end.

(** [occurs a tr]: the action [a] is in the trace. *)
Definition occurs (a : Action) (tr : list Action) : bool :=
  existsb (Action_eqb a) tr.

(** [index_of a tr]: position of the first [a] in [tr]. *)
Fixpoint index_of (a : Action) (tr : list Action) : option nat :=
  match tr with
  | [] => None
  | x :: tr' =>
      if Action_eqb a x then Some 0
      else match index_of a tr' with
           | Some i => Some (S i)
           | None => None
           end
  end.

(** [precedes a b tr]: both occur, and the first [a] comes before the
    first [b]. *)
Definition precedes (a b : Action) (tr : list Action) : bool :=
  match index_of a tr, index_of b tr with
  | Some i, Some j => i <? j
  | _, _ => false
  end.

(** [count a tr]: how many times the action [a] is in the trace. *)
Definition count (a : Action) (tr : list Action) : nat :=
  List.length (filter (Action_eqb a) tr).

(* ================================================================== *)
(** ** useAudioAnalyzer.ts *)
(* ================================================================== *)

Module AudioAnalyzer.

Open Scope R_scope.

(** [AnalyzerData]: [freq] and [time] are [Uint8Array]s. *)
Record AnalyzerData := {
  freq : list byte;
  time : list byte;
  level : R
}.

(** The value of [time[i]] as a number. *)
Definition byte_value (b : byte) : R := IZR (Z.of_N (Byte.to_N b)).

(** [const v = (time[i] - 128) / 128]. *)
Definition normalize (b : byte) : R := (byte_value b - 128) / 128.

(** The loop
    [let sum = 0; for (i = 0; i < time.length; i++) { v = ...; sum += v * v }]. *)
Definition sum_squares (time : list byte) : R :=
  fold_left (fun sum b => let v := normalize b in sum + v * v) time 0.

(** [const rms = Math.sqrt(sum / time.length)].  On an empty buffer the
    source computes 0/0, which is NaN; [time] is
    [new Uint8Array(analyser.fftSize)] and Web Audio admits only the sizes
    32, 64, ..., 32768, so the statements below are about non-empty
    buffers (the binary64 evaluation below has the NaN). *)
Definition rms (time : list byte) : R :=
  sqrt (sum_squares time / INR (List.length time)).

(** [const level = Math.min(1, rms * 2.2)]. *)
Definition compute_level (time : list byte) : R :=
  Rmin 1 (rms time * 2.2).

(** *** The specification's wording of the level

    "the root-mean-square of the time-domain samples after remapping each
    byte from [0,255] to [-1,1], clipped to 1.0 after a fixed gain
    multiplier (reference gain 2.2)". *)
Module Spec.

(** The remapping of unsigned 8-bit audio: the byte 128 is zero
    amplitude and 128 units are full scale, so 0 goes to -1 and 255 to
    127/128. *)
Definition remap (b : byte) : R := (byte_value b - 128) / 128.

Definition mean (xs : list R) : R :=
  fold_right Rplus 0 xs / INR (List.length xs).

Definition root_mean_square (xs : list R) : R :=
  sqrt (mean (map (fun x => x * x) xs)).

Definition gain : R := 2.2.

Definition clip (ceiling x : R) : R := if Rle_dec x ceiling then x else ceiling.

Definition level (time : list byte) : R :=
  clip 1 (gain * root_mean_square (map remap time)).

End Spec.

(** Test buffers: silence is the midpoint byte 128 in every position (the
    byte that [normalize] sends to 0); the full-scale square wave
    alternates between the bytes 0 and 255. *)
Definition silent (n : nat) : list byte := repeat x80 n.

Fixpoint square_wave (low_first : bool) (n : nat) : list byte :=
  match n with
  | O => []
  | S k => (if low_first then x00 else xff) :: square_wave (negb low_first) k
  end.

(** The values Web Audio admits for [AnalyserNode.fftSize], hence the
    lengths of [time]: the powers of two from 32 to 32768. *)
Definition fft_sizes : list nat := map (Nat.pow 2) (seq 5 11).

(** *** The level over IEEE binary64, as JavaScript evaluates it *)
Module Binary64.

Import PrimFloat.
Local Open Scope float_scope.

Definition of_nat (n : nat) : float :=
  of_uint63 (Uint63.of_Z (Z.of_nat n)).

Definition byte_value (b : byte) : float :=
  of_uint63 (Uint63.of_Z (Z.of_N (Byte.to_N b))).

Definition sum_squares (time : list byte) : float :=
  fold_left
    (fun sum b => let v := (byte_value b - 128) / 128 in sum + v * v)
    time 0.

(** [Math.min(a, b)]: NaN if either argument is NaN. *)
Definition Math_min (a b : float) : float :=
  if is_nan a then a
  else if is_nan b then b
  else if PrimFloat.ltb b a then b else a.

Definition compute_level (time : list byte) : float :=
  let rms := sqrt (sum_squares time / of_nat (List.length time)) in
  Math_min 1 (rms * 0x1.199999999999ap+1).

(** Classes of values, read on the specification of binary64 floats:
    [nonneg] holds of +0, of the positive finite values and of +infinity;
    it excludes NaN. *)
Definition nonneg (x : SpecFloat.spec_float) : bool :=
  match x with
  | SpecFloat.S754_zero false
  | SpecFloat.S754_infinity false
  | SpecFloat.S754_finite false _ _ => true
  | _ => false
  end.

Definition positive_finite (x : SpecFloat.spec_float) : bool :=
  match x with
  | SpecFloat.S754_finite false _ _ => true
  | _ => false
  end.

(** [0 <= x <= 1] in binary64 (false of NaN). *)
Definition in_unit_interval (x : float) : bool :=
  (0 <=? x) && (x <=? 1).

End Binary64.

(** *** The hook's state and effects *)

(** What [supportsMotion] reads from the host page. *)
Record Host := {
  has_window : bool;             (* typeof window !== 'undefined' *)
  has_matchMedia : bool;         (* window.matchMedia is defined *)
  reduced_motion_matches : bool  (* matchMedia('(prefers-reduced-motion: reduce)').matches *)
}.

Definition supportsMotion (h : Host) : bool :=
  if negb (has_window h) then true
  else negb (has_matchMedia h) || negb (reduced_motion_matches h).

(** A [MediaStreamTrack]: the object, by its identity, and its [id]
    property.  Two track objects can carry the same id. *)
Record Track := {
  track_object : nat;
  track_id : nat
}.

(** The dependency of the second effect, [mediaStreamTrack], compared as
    React compares it: the same object, or [null] both times. *)
Definition same_object (a b : option Track) : bool :=
  match a, b with
  | None, None => true
  | Some x, Some y => Nat.eqb (track_object x) (track_object y)
  | _, _ => false
  end.

(** The dependency of the first effect, [mediaStreamTrack?.id]: the same
    id, or [undefined] both times. *)
Definition same_id (a b : option Track) : bool :=
  match a, b with
  | None, None => true
  | Some x, Some y => Nat.eqb (track_id x) (track_id y)
  | _, _ => false
  end.

(** A track object with its own id, for the examples. *)
Definition a_track (n : nat) : Track :=
  {| track_object := n; track_id := n |}.

(** One instance of the hook.  A [...Ref] field is [true] when
    [ref.current] is not null; [loop_pending] says that a frame callback of
    [loop] is scheduled and not cancelled; [cleanup_armed] says that the
    last run of the second effect went past its two early returns and so
    returned its cleanup closure.  [supports_motion] is the [useMemo]
    value, computed at the first render and kept. *)
Record Hook := {
  mediaStreamTrack : option Track;
  supports_motion : bool;
  data : option AnalyzerData;
  audioCtxRef : bool;
  analyserRef : bool;
  sourceRef : bool;
  rafRef : bool;
  loop_pending : bool;
  cleanup_armed : bool;
  mounted : bool
}.

Definition when (c : bool) (a : Action) : list Action :=
  if c then [a] else [].

(** The cleanup of the first effect (lines 31-40). *)
Definition cleanup_refs (h : Hook) : Hook * list Action :=
  ({| mediaStreamTrack := mediaStreamTrack h;
      supports_motion := supports_motion h;
      data := data h;
      audioCtxRef := false;
      analyserRef := false;
      sourceRef := false;
      rafRef := false;
      loop_pending := if rafRef h then false else loop_pending h;
      cleanup_armed := cleanup_armed h;
      mounted := mounted h |},
   when (rafRef h) (CancelAnimationFrame SamplerLoop)
   ++ when (sourceRef h) DisconnectSource
   ++ when (analyserRef h) DisconnectAnalyser
   ++ when (audioCtxRef h) CloseAudioContext).

(** The cleanup returned by the second effect (lines 87-92), when there
    is one. *)
Definition cleanup_effect (h : Hook) : Hook * list Action :=
  if cleanup_armed h then
    ({| mediaStreamTrack := mediaStreamTrack h;
        supports_motion := supports_motion h;
        data := data h;
        audioCtxRef := audioCtxRef h;
        analyserRef := analyserRef h;
        sourceRef := sourceRef h;
        rafRef := rafRef h;
        loop_pending := if rafRef h then false else loop_pending h;
        cleanup_armed := false;
        mounted := mounted h |},
     when (rafRef h) (CancelAnimationFrame SamplerLoop)
     ++ [DisconnectSource; DisconnectAnalyser; CloseAudioContext])
  else (h, []).

(** The body of the second effect (lines 45-85) for the track of the
    current render. *)
Definition effect (h : Hook) : Hook * list Action :=
  match mediaStreamTrack h with
  | None => (h, [])                               (* if (!mediaStreamTrack) return *)
  | Some _ =>
      if negb (supports_motion h) then (h, [])    (* honor reduced motion *)
      else
        ({| mediaStreamTrack := mediaStreamTrack h;
            supports_motion := supports_motion h;
            data := data h;
            audioCtxRef := true;
            analyserRef := true;
            sourceRef := true;
            rafRef := true;
            loop_pending := true;
            cleanup_armed := true;
            mounted := mounted h |},
         [NewAudioContext; CreateAnalyser; CreateMediaStreamSource;
          ConnectSource; RequestAnimationFrame SamplerLoop])
  end.

(** One call of [loop], with the bytes the analyser node writes into
    [freq] and [time]. *)
Definition loop (freq time : list byte) (h : Hook) : Hook * list Action :=
  if negb (analyserRef h) then
    ({| mediaStreamTrack := mediaStreamTrack h;
        supports_motion := supports_motion h;
        data := data h;
        audioCtxRef := audioCtxRef h;
        analyserRef := analyserRef h;
        sourceRef := sourceRef h;
        rafRef := rafRef h;
        loop_pending := false;
        cleanup_armed := cleanup_armed h;
        mounted := mounted h |}, [])
  else
    ({| mediaStreamTrack := mediaStreamTrack h;
        supports_motion := supports_motion h;
        data := Some {| freq := freq; time := time;
                        level := compute_level time |};
        audioCtxRef := audioCtxRef h;
        analyserRef := analyserRef h;
        sourceRef := sourceRef h;
        rafRef := true;
        loop_pending := true;
        cleanup_armed := cleanup_armed h;
        mounted := mounted h |},
     [RequestAnimationFrame SamplerLoop]).

(** What happens to a mounted hook. *)
Inductive Event :=
| Render (track : option Track)           (* the component renders with this track *)
| AnimationFrame (freq time : list byte)  (* the display's frame callback *)
| HostChange (host : Host)                (* the page's media-query state changes *)
| Unmount.

Definition set_track (t : option Track) (h : Hook) : Hook :=
  {| mediaStreamTrack := t;
     supports_motion := supports_motion h;
     data := data h;
     audioCtxRef := audioCtxRef h;
     analyserRef := analyserRef h;
     sourceRef := sourceRef h;
     rafRef := rafRef h;
     loop_pending := loop_pending h;
     cleanup_armed := cleanup_armed h;
     mounted := mounted h |}.

Definition set_unmounted (h : Hook) : Hook :=
  {| mediaStreamTrack := mediaStreamTrack h;
     supports_motion := supports_motion h;
     data := data h;
     audioCtxRef := audioCtxRef h;
     analyserRef := analyserRef h;
     sourceRef := sourceRef h;
     rafRef := rafRef h;
     loop_pending := loop_pending h;
     cleanup_armed := cleanup_armed h;
     mounted := false |}.

(** Both cleanups, in the order the effects are declared. *)
Definition cleanups (h : Hook) : Hook * list Action :=
  let (h1, a1) := cleanup_refs h in
  let (h2, a2) := cleanup_effect h1 in
  (h2, a1 ++ a2).

(** First render and commit: the memo is computed from the host, the
    state is [null], the refs are [null], and the second effect runs. *)
Definition mount (host : Host) (track : option Track) : Hook * list Action :=
  effect {| mediaStreamTrack := track;
            supports_motion := supportsMotion host;
            data := None;
            audioCtxRef := false;
            analyserRef := false;
            sourceRef := false;
            rafRef := false;
            loop_pending := false;
            cleanup_armed := false;
            mounted := true |}.

(** A render re-runs the effects whose dependencies changed: the first
    effect is keyed on the track's id, the second on the track object
    ([fftSize], [smoothingTimeConstant] and [supportsMotion] are constant
    for an instance).  React first runs the cleanups of those effects, in
    declaration order, then their bodies; the body of the first effect
    only registers its cleanup.  A frame callback runs only while one is
    pending.  The memo has an empty dependency array, so a later change of
    the host's media query is not read. *)
Definition step (h : Hook) (e : Event) : Hook * list Action :=
  if negb (mounted h) then (h, [])
  else
    match e with
    | Render t =>
        let id_changed := negb (same_id t (mediaStreamTrack h)) in
        let object_changed := negb (same_object t (mediaStreamTrack h)) in
        let (h1, a1) := if id_changed then cleanup_refs h else (h, []) in
        let (h2, a2) := if object_changed then cleanup_effect h1 else (h1, []) in
        let (h3, a3) :=
          if object_changed then effect (set_track t h2)
          else (set_track t h2, []) in
        (h3, a1 ++ a2 ++ a3)
    | AnimationFrame f t =>
        if loop_pending h then loop f t h else (h, [])
    | HostChange _ => (h, [])
    | Unmount =>
        let (h1, a1) := cleanups h in
        (set_unmounted h1, a1)
    end.

Fixpoint run (h : Hook) (es : list Event) : Hook * list Action :=
  match es with
  | [] => (h, [])
  | e :: es' =>
      let (h1, a1) := step h e in
      let (h2, a2) := run h1 es' in
      (h2, a1 ++ a2)
  end.

(** The values [useAudioAnalyzer] returns, render after render: the state
    after mounting and after each event. *)
Fixpoint outputs (h : Hook) (es : list Event) : list (option AnalyzerData) :=
  data h ::
  match es with
  | [] => []
  | e :: es' => outputs (fst (step h e)) es'
  end.

(** A whole life of one instance: mount, then the events. *)
Definition life (host : Host) (track : option Track) (es : list Event)
  : Hook * list Action :=
  let (h0, a0) := mount host track in
  let (h1, a1) := run h0 es in
  (h1, a0 ++ a1).



(** The refs and the scheduler agree: an analyser is held only for a
    track, and a frame callback is pending only while an analyser is held
    and [rafRef] names the callback. *)
Definition coherent (h : Hook) : Prop :=
  (analyserRef h = true -> mediaStreamTrack h <> None)
  /\ (loop_pending h = true -> analyserRef h = true /\ rafRef h = true).


(** The sample [loop] builds from the buffers of one frame. *)
Definition sample (freq time : list byte) : AnalyzerData :=
  {| freq := freq; time := time; level := compute_level time |}.

(** A run of display frames, each with the buffers the analyser fills. *)
Definition frames (buffers : list (list byte * list byte)) : list Event :=
  map (fun b => AnimationFrame (fst b) (snd b)) buffers.

(** The actions of the second effect when it starts the sampler, and
    those of the two cleanups of a running sampler. *)
Definition start_actions : list Action :=
  [NewAudioContext; CreateAnalyser; CreateMediaStreamSource;
   ConnectSource; RequestAnimationFrame SamplerLoop].

Definition release_actions : list Action :=
  [CancelAnimationFrame SamplerLoop;
   DisconnectSource; DisconnectAnalyser; CloseAudioContext;
   DisconnectSource; DisconnectAnalyser; CloseAudioContext].

(** A value the hook returns is sound: a sample carries the level of its
    own time-domain buffer, which lies in [0,1]. *)
Definition sound (o : option AnalyzerData) : Prop :=
  match o with
  | Some d => level d = compute_level (time d) /\ 0 <= level d <= 1
  | None => True
  end.

(** [setData(d)]. *)
Definition setData (d : option AnalyzerData) (h : Hook) : Hook :=
  {| mediaStreamTrack := mediaStreamTrack h;
     supports_motion := supports_motion h;
     data := d;
     audioCtxRef := audioCtxRef h;
     analyserRef := analyserRef h;
     sourceRef := sourceRef h;
     rafRef := rafRef h;
     loop_pending := loop_pending h;
     cleanup_armed := cleanup_armed h;
     mounted := mounted h |}.

(** A browser that does not ask for reduced motion, for the examples. *)
Definition motion_host_on : Host :=
  {| has_window := true; has_matchMedia := true;
     reduced_motion_matches := false |}.

(** The sampler runs: the hook is mounted on a host that supports motion,
    holds context, analyser and source, and its frame callback is
    scheduled. *)
Definition running (h : Hook) : Prop :=
  mounted h = true /\ supports_motion h = true
  /\ audioCtxRef h = true /\ analyserRef h = true /\ sourceRef h = true
  /\ rafRef h = true /\ loop_pending h = true /\ cleanup_armed h = true.

(** The actions of the second effect's cleanup alone, for a sampler whose
    frame callback is scheduled. *)
Definition effect_release_actions : list Action :=
  [CancelAnimationFrame SamplerLoop;
   DisconnectSource; DisconnectAnalyser; CloseAudioContext].

(** Reading a trace with one bit, whether an audio context is open:
    [new AudioContext()] opens one, and is refused ([None]) while one is
    open; [close()] closes the open one (on a closed context the request
    is rejected and changes nothing). *)
Fixpoint scan (open : bool) (trace : list Action) : option bool :=
  match trace with
  | [] => Some open
  | NewAudioContext :: rest => if open then None else scan true rest
  | CloseAudioContext :: rest => scan false rest
  | _ :: rest => scan open rest
  end.

(** An open context belongs to a mounted hook that holds the cleanup
    closure of the effect run that created it. *)
Definition tracked (open : bool) (h : Hook) : Prop :=
  open = true -> cleanup_armed h = true /\ mounted h = true.

End AudioAnalyzer.

(* ================================================================== *)
(** ** RadialVisualizer.tsx *)
(* ================================================================== *)

Module RadialVisualizer.

Import AudioAnalyzer.
Open Scope R_scope.

(** [Props['state']]. *)
Inductive AgentState := idle | listening | thinking | speaking.

Definition colorMap (state : AgentState) : string * string :=
  match state with
  | idle => ("rgba(255,255,255,0.15)", "rgba(255,255,255,0.05)")
  | listening => ("#34d399", "#22c55e")
  | thinking => ("#fbbf24", "#f59e0b")
  | speaking => ("#60a5fa", "#8b5cf6")
  end%string.

Definition rings : nat := 4.
Definition steps : nat := 128.

(** [amp] at step [i]:
    [data?.time?.length ? (data.time[Math.floor((i / steps) * data.time.length)] - 128) / 128 : 0].
    [i / steps] and its product with the length are exact in binary64, so
    the index is the integer quotient.  An index past the end reads
    [undefined] and the arithmetic gives NaN: [None]. *)
Definition amp (data : option AnalyzerData) (i : nat) : option R :=
  match data with
  | Some d =>
      match List.length (time d) with
      | O => Some 0
      | S _ as len => option_map normalize (nth_error (time d) (i * len / steps))
      end
  | None => Some 0
  end.

(** [state === 'speaking' ? 8 : state === 'listening' ? 6 : 3]. *)
Definition wobble_factor (state : AgentState) : R :=
  match state with
  | speaking => 8
  | listening => 6
  | _ => 3
  end.

(** One stroked ring: its gradient colours, alpha, line width, and for
    each of the [steps + 1] angles the distance [radius + wobble] of the
    path point from the centre ([None]: NaN coordinates). *)
Record Ring := {
  ring_radius : R;
  ring_colors : string * string;
  ring_alpha : R;
  ring_lineWidth : R;
  ring_path : list (option R)
}.

Definition ring (baseRadius : R) (data : option AnalyzerData)
    (state : AgentState) (r : nat) : Ring :=
  let radius := baseRadius + INR r * 14 in
  {| ring_radius := radius;
     ring_colors := colorMap state;
     ring_alpha := 0.26 - INR r * 0.04;
     ring_lineWidth := 6.5 - INR r * 0.8;
     ring_path :=
       map (fun i =>
              option_map (fun a => radius + a * wobble_factor state)
                         (amp data i))
           (seq 0 (S steps)) |}.

(** [const level = data?.level ?? 0.05]. *)
Definition level_or_default (data : option AnalyzerData) : R :=
  match data with
  | Some d => level d
  | None => 0.05
  end.

(** What one call of [render] paints on a canvas of CSS size [w] by [h]. *)
Record Picture := {
  pic_rings : list Ring;
  pic_level : R;
  pic_glow_radius : R;
  pic_core_radius : R
}.

Definition render (w h : R) (data : option AnalyzerData) (state : AgentState)
  : Picture :=
  let baseRadius := Rmin w h * 0.32 in
  let level := level_or_default data in
  {| pic_rings := map (ring baseRadius data state) (seq 0 rings);
     pic_level := level;
     pic_glow_radius := baseRadius + 64 + level * 40;
     pic_core_radius :=
       baseRadius * 0.38
       + level * (match state with speaking => 14 | _ => 8 end) |}.

(** The render effect of a mounted visualizer with fixed props.
    [canvas] is [None] when [canvasRef.current] or its 2d context is null,
    else the canvas size in CSS pixels; [raf] says that a call of
    [render] is scheduled. *)
Record Visualizer := {
  vdata : option AnalyzerData;
  vstate : AgentState;
  canvas : option (R * R);
  raf : bool
}.

Definition start (data : option AnalyzerData) (state : AgentState)
    (canvas : option (R * R)) : Visualizer * list Action :=
  match canvas with
  | None =>
      ({| vdata := data; vstate := state; canvas := None; raf := false |}, [])
  | Some _ =>
      ({| vdata := data; vstate := state; canvas := canvas; raf := true |},
       [RequestAnimationFrame RenderLoop])
  end.



(** The effect's cleanup: [if (raf) cancelAnimationFrame(raf)]. *)
Definition cleanup (v : Visualizer) : Visualizer * list Action :=
  ({| vdata := vdata v; vstate := vstate v; canvas := canvas v; raf := false |},
   when (raf v) (CancelAnimationFrame RenderLoop)).

(** Bounds of one picture's pulsing parts on a canvas of CSS size [w] by
    [h]: the glow circle and the core disc stay within these radii. *)
Definition pulse_bounded (w h : R) (p : Picture) : Prop :=
  Rmin w h * 0.32 + 64 <= pic_glow_radius p <= Rmin w h * 0.32 + 104
  /\ Rmin w h * 0.32 * 0.38 <= pic_core_radius p <= Rmin w h * 0.32 * 0.38 + 14.

End RadialVisualizer.

(* ================================================================== *)
(** ** VoiceAgent.tsx: component VoiceInterface *)
(* ================================================================== *)

Module VoiceInterface.

(** A value produced by [JSON.parse].  Numbers are kept as integers:
    the handler only tests whether a number is zero. *)
Inductive JsValue :=
| JsNull
| JsBool (b : bool)
| JsNumber (n : Z)
| JsString (s : string)
| JsArray (items : list JsValue)
| JsObject (fields : list (string * JsValue)).

(** The outcome of [JSON.parse(decoder.decode(payload))]: both are the
    host's built-ins, and the handler is modelled on their outcome. *)
Inductive Parse :=
| SyntaxError
| Parsed (v : JsValue).

(** Truthiness. *)
Definition truthy (v : JsValue) : bool :=
  match v with
  | JsNull => false
  | JsBool b => b
  | JsNumber n => negb (Z.eqb n 0)
  | JsString s => negb (String.eqb s "")
  | JsArray _ | JsObject _ => true
  end.

(** The own property [key] of a parsed object: the last of duplicated
    keys wins in [JSON.parse]. *)
Fixpoint own_property (key : string) (fields : list (string * JsValue))
  : option JsValue :=
  match fields with
  | [] => None
  | (k, v) :: rest =>
      match own_property key rest with
      | Some v' => Some v'
      | None => if String.eqb k key then Some v else None
      end
  end.

(** The result of evaluating [data.state]. *)
Inductive Read :=
| TypeError                 (* data is null *)
| Undefined
| Value (v : JsValue).

Definition read_state (data : JsValue) : Read :=
  match data with
  | JsNull => TypeError
  | JsObject fields =>
      match own_property "state" fields with
      | Some v => Value v
      | None => Undefined
      end
  | _ => Undefined
  end.

(** A participant object; [pid] is the object's identity. *)
Record Participant := {
  pid : nat;
  identity : string
}.

Definition same_participant (a b : Participant) : bool := Nat.eqb (pid a) (pid b).

Inductive Source := Microphone | Camera | ScreenShare | Unknown.

Definition is_microphone (s : Source) : bool :=
  match s with Microphone => true | _ => false end.

(** A track reference of [useTracks]. *)
Record TrackRef := {
  participant : option Participant;
  source : Source;
  track_media : option AudioAnalyzer.Track  (* publication?.track?.mediaStreamTrack *)
}.

(** The component's state.  [agentState] is declared with the four-value
    union type; at run time it holds whatever [setAgentState] was given. *)
Record State := {
  agentState : JsValue;
  isListening : bool;
  agentParticipantRef : option Participant
}.

Definition initial : State :=
  {| agentState := JsString "idle";
     isListening := false;
     agentParticipantRef := None |}.

Definition setAgentState (v : JsValue) (st : State) : State :=
  {| agentState := v;
     isListening := isListening st;
     agentParticipantRef := agentParticipantRef st |}.

Definition setIsListening (b : bool) (st : State) : State :=
  {| agentState := agentState st;
     isListening := b;
     agentParticipantRef := agentParticipantRef st |}.

(** The first effect (lines 29-34), run when [remoteParticipants]
    changes. *)
Definition find_agent (remoteParticipants : list Participant) (st : State)
  : State :=
  match remoteParticipants with
  | agentParticipant :: _ =>
      {| agentState := agentState st;
         isListening := isListening st;
         agentParticipantRef := Some agentParticipant |}
  | [] => st
  end.

(** The second effect (lines 37-63), run when [remoteParticipants] or
    [tracks] changes. *)
Definition track_agent (tracks : list TrackRef) (st : State) : State :=
  match agentParticipantRef st with
  | None =>
      (* Agent not connected yet *)
      setIsListening true (setAgentState (JsString "listening") st)
  | Some agentParticipant =>
      let agentTracks :=
        filter (fun trackRef =>
                  match participant trackRef with
                  | Some p =>
                      String.eqb (identity p) (identity agentParticipant)
                      && is_microphone (source trackRef)
                  | None => false
                  end) tracks in
      match List.length agentTracks with
      | O =>
          (* Agent connected but no audio track yet - waiting *)
          setIsListening true (setAgentState (JsString "listening") st)
      | S _ =>
          (* Agent is connected and has audio track - default to listening *)
          setIsListening true (setAgentState (JsString "listening") st)
      end
  end.

(** After a render in which [remoteParticipants] changed, both effects
    run, in declaration order; after one in which only [tracks] changed,
    the second alone. *)
Definition participants_changed
    (remoteParticipants : list Participant) (tracks : list TrackRef)
    (st : State) : State :=
  track_agent tracks (find_agent remoteParticipants st).

Definition tracks_changed (tracks : list TrackRef) (st : State) : State :=
  track_agent tracks st.

(** [handleDataReceived] (lines 67-79).  [participant] is the optional
    sender, [local] is [localParticipant.localParticipant]. *)
Definition handleDataReceived (local : Participant) (payload : Parse)
    (participant : option Participant) (st : State) : State :=
  match participant with
  | Some p =>
      if negb (same_participant p local) then
        match payload with
        | SyntaxError => st                   (* caught *)
        | Parsed data =>
            match read_state data with
            | TypeError => st                 (* caught *)
            | Undefined => st
            | Value v => if truthy v then setAgentState v st else st
            end
        end
      else st
  | None => st
  end.

(** The closed set of the declared type, and the reading of a run-time
    value as a member of it. *)
Definition as_AgentState (v : JsValue) : option RadialVisualizer.AgentState :=
  match v with
  | JsString s =>
      if String.eqb s "idle" then Some RadialVisualizer.idle
      else if String.eqb s "listening" then Some RadialVisualizer.listening
      else if String.eqb s "thinking" then Some RadialVisualizer.thinking
      else if String.eqb s "speaking" then Some RadialVisualizer.speaking
      else None
  | _ => None
  end.

Definition enumerated (v : JsValue) : bool :=
  match as_AgentState v with Some _ => true | None => false end.

(** [getStatusText]. *)
Definition getStatusText (st : State) : string :=
  match as_AgentState (agentState st) with
  | Some RadialVisualizer.listening => "Listening to you..."
  | Some RadialVisualizer.thinking => "Processing..."
  | Some RadialVisualizer.speaking => "Speaking..."
  | _ => "Ready to chat"
  end.

(** [agentMicTrack] (lines 115-124): the media track of the first track
    reference that is remote, a microphone, and has a media track. *)
Definition agentMicTrack (local : Participant) (tracks : list TrackRef)
  : option AudioAnalyzer.Track :=
  match
    find (fun t =>
            match participant t, track_media t with
            | Some p, Some _ =>
                negb (same_participant p local) && is_microphone (source t)
            | _, _ => false
            end) tracks
  with
  | Some ref => track_media ref
  | None => None
  end.

(** [getStatusColor]. *)
Definition getStatusColor (st : State) : string :=
  match as_AgentState (agentState st) with
  | Some RadialVisualizer.listening => "bg-green-500"
  | Some RadialVisualizer.thinking => "bg-yellow-500"
  | Some RadialVisualizer.speaking => "bg-blue-500"
  | _ => "bg-gray-500"
  end.

(** The class of the status dot (lines 174-182). *)
Definition statusDotClass (st : State) : string :=
  match as_AgentState (agentState st) with
  | Some RadialVisualizer.speaking => "state-speaking"
  | Some RadialVisualizer.thinking => "state-thinking"
  | Some RadialVisualizer.listening => "state-listening"
  | _ => "state-idle"
  end.

(** A track reference that [agentMicTrack] accepts: of a participant
    other than the local one, from the microphone, with a media track. *)
Definition remote_microphone (local : Participant) (t : TrackRef) : bool :=
  match participant t, track_media t with
  | Some p, Some _ => negb (same_participant p local) && is_microphone (source t)
  | _, _ => false
  end.

(** Two participants for the examples: the local user and the remote
    agent. *)
Definition user : Participant := {| pid := 0; identity := "user" |}.
Definition agent : Participant := {| pid := 1; identity := "agent" |}.

(** The listener effect (lines 66-85): subscribe, and unsubscribe in the
    cleanup. *)
Definition subscribe : list Action := [RoomOnDataReceived].
Definition unsubscribe : list Action := [RoomOffDataReceived].

End VoiceInterface.

(* ================================================================== *)
(** ** VoiceAgent.tsx: component VoiceAgent *)
(* ================================================================== *)

Module VoiceAgent.

Open Scope string_scope.

Definition roomName : string := "voice-agent-room".

(** [useState] cells of the component; [pending_fetches] and
    [pending_timers] count the token requests in flight and the
    [setTimeout(fetchToken, 2000)] timers not yet fired. *)
Record State := {
  token : string;
  isConnecting : bool;
  error : string;
  pending_fetches : nat;
  pending_timers : nat
}.

Definition initial : State :=
  {| token := ""; isConnecting := false; error := "";
     pending_fetches := 0; pending_timers := 0 |}.

(** A thrown value: [err instanceof Error ? err.message : 'Unknown error']. *)
Inductive Thrown :=
| ThrownError (message : string)
| ThrownOther.

Definition errorMessage (e : Thrown) : string :=
  match e with
  | ThrownError m => m
  | ThrownOther => "Unknown error"
  end.

(** How one [fetch] of the token endpoint ends.  The body is the
    endpoint's [{ token: string }]; [None] is a body without the field. *)
Inductive Body :=
| BodyRejects (e : Thrown)            (* response.json() rejects *)
| BodyData (token : option string).

Inductive FetchOutcome :=
| FetchRejects (e : Thrown)           (* fetch() rejects *)
| FetchResponse (ok : bool) (status : nat) (body : Body).

Inductive DisconnectReason :=
| CLIENT_INITIATED
| OtherReason (code : nat).

Definition decimal (n : nat) : string :=
  NilEmpty.string_of_uint (Nat.to_uint n).

(** [fetchToken], up to its first [await]. *)
Definition fetchToken (st : State) : State * list Action :=
  ({| token := token st;
      isConnecting := true;
      error := "";
      pending_fetches := S (pending_fetches st);
      pending_timers := pending_timers st |},
   [FetchToken roomName]).

(** What the [try] block does with the outcome: [inl] is the token given
    to [setToken], [inr] the message given to [setError] by the [catch]. *)
Definition token_or_error (o : FetchOutcome) : string + string :=
  match o with
  | FetchRejects e => inr (errorMessage e)
  | FetchResponse false status _ =>
      inr ("Token fetch failed: " ++ decimal status)
  | FetchResponse true _ (BodyRejects e) => inr (errorMessage e)
  | FetchResponse true _ (BodyData None) => inr "No token received"
  | FetchResponse true _ (BodyData (Some t)) =>
      if String.eqb t "" then inr "No token received" else inl t
  end.

(** [fetchToken], from its first [await] to the end of [finally]. *)
Definition fetchToken_settles (o : FetchOutcome) (st : State) : State :=
  match token_or_error o with
  | inl t =>
      {| token := t;
         isConnecting := false;
         error := error st;
         pending_fetches := pred (pending_fetches st);
         pending_timers := pending_timers st |}
  | inr msg =>
      {| token := token st;
         isConnecting := false;
         error := msg;
         pending_fetches := pred (pending_fetches st);
         pending_timers := pending_timers st |}
  end.

(** The props given to [LiveKitRoom]. *)
Record RoomProps := {
  room_token : string;
  room_serverUrl : string;
  room_connect : bool;
  room_audio : bool;
  room_video : bool
}.

(** What the component returns. *)
Inductive View :=
| LoadingView                  (* spinner, "Connecting to voice agent..." *)
| ErrorView (message : string) (* "Connection Error", with the button "Retry Connection" *)
| ConfigErrorView              (* "Configuration Error" *)
| RoomView (props : RoomProps).

(** The component's return value; [serverUrl] is
    [process.env.NEXT_PUBLIC_LIVEKIT_URL]. *)
Definition render (serverUrl : option string) (st : State) : View :=
  if isConnecting st || String.eqb (token st) "" then LoadingView
  else if negb (String.eqb (error st) "") then ErrorView (error st)
  else
    match serverUrl with
    | None => ConfigErrorView
    | Some url =>
        if String.eqb url "" then ConfigErrorView
        else RoomView {| room_token := token st;
                         room_serverUrl := url;
                         room_connect := true;
                         room_audio := true;
                         room_video := false |}
    end.

(** The view offers the user a retry. *)
Definition offers_retry (v : View) : bool :=
  match v with ErrorView _ => true | _ => false end.

Definition shows_room (v : View) : bool :=
  match v with RoomView _ => true | _ => false end.

(** What happens to a mounted component.  [ClickRetry] is the only thing
    the user can do to it; it needs the button of the error view.  The
    [Room...] events are the callbacks given to [LiveKitRoom], which
    exists while the room view is rendered. *)
Inductive Event :=
| FetchSettled (o : FetchOutcome)
| ClickRetry
| RoomConnected
| RoomDisconnected (reason : option DisconnectReason)
| RoomError (message : string)
| TimerFired.

Definition is_user_action (e : Event) : bool :=
  match e with ClickRetry => true | _ => false end.

Definition client_initiated (reason : option DisconnectReason) : bool :=
  match reason with Some CLIENT_INITIATED => true | _ => false end.

(** The mount effect: [useEffect(() => { fetchToken(); }, [fetchToken])]. *)
Definition mount : State * list Action := fetchToken initial.

Definition step (serverUrl : option string) (st : State) (e : Event)
  : State * list Action :=
  match e with
  | FetchSettled o =>
      match pending_fetches st with
      | O => (st, [])
      | S _ => (fetchToken_settles o st, [])
      end
  | ClickRetry =>
      if offers_retry (render serverUrl st) then fetchToken st else (st, [])
  | RoomConnected => (st, [])
  | RoomDisconnected reason =>
      if shows_room (render serverUrl st) && negb (client_initiated reason)
      then ({| token := token st;
               isConnecting := isConnecting st;
               error := error st;
               pending_fetches := pending_fetches st;
               pending_timers := S (pending_timers st) |},
            [SetTimeout 2000])
      else (st, [])
  | RoomError message =>
      if shows_room (render serverUrl st)
      then ({| token := token st;
               isConnecting := isConnecting st;
               error := message;
               pending_fetches := pending_fetches st;
               pending_timers := pending_timers st |}, [])
      else (st, [])
  | TimerFired =>
      match pending_timers st with
      | O => (st, [])
      | S k =>
          fetchToken {| token := token st;
                        isConnecting := isConnecting st;
                        error := error st;
                        pending_fetches := pending_fetches st;
                        pending_timers := k |}
      end
  end.

Fixpoint run (serverUrl : option string) (st : State) (es : list Event)
  : State * list Action :=
  match es with
  | [] => (st, [])
  | e :: es' =>
      let (st1, a1) := step serverUrl st e in
      let (st2, a2) := run serverUrl st1 es' in
      (st2, (a1 ++ a2)%list)
  end.

(** Mount, then the events. *)
Definition life (serverUrl : option string) (es : list Event)
  : State * list Action :=
  let (st0, a0) := mount in
  let (st1, a1) := run serverUrl st0 es in
  (st1, (a0 ++ a1)%list).

(** The views the component returns, render after render: after the
    mount and after each event. *)
Fixpoint views_from (serverUrl : option string) (st : State)
    (es : list Event) : list View :=
  render serverUrl st ::
  match es with
  | [] => []
  | e :: es' => views_from serverUrl (fst (step serverUrl st e)) es'
  end.

Definition views (serverUrl : option string) (es : list Event) : list View :=
  views_from serverUrl (fst mount) es.

(** A rendered [LiveKitRoom] with [connect] set opens a transport
    session. *)
Definition opens_session (v : View) : bool :=
  match v with
  | RoomView props => room_connect props
  | _ => false
  end.

(** The state in which the component holds a token, is not fetching, and
    has no error. *)
Definition ready (st : State) : bool :=
  negb (isConnecting st) && negb (String.eqb (token st) "")
  && String.eqb (error st) "".

Definition configured (serverUrl : option string) : bool :=
  match serverUrl with
  | Some url => negb (String.eqb url "")
  | None => false
  end.

End VoiceAgent.

(* ================================================================== *)
(** ** The mounted page *)
(* ================================================================== *)

Module Page.

(** [room.state] of the transport room. *)
Inductive ConnectionState :=
| Disconnected | Connecting | Connected | Reconnecting.

(** The badge colour of [VoiceInterface] (lines 193-199). *)
Definition badge (s : ConnectionState) : string :=
  match s with
  | Connected => "bg-green-500"
  | Connecting => "bg-yellow-500"
  | _ => "bg-red-500"
  end.

(** The subtree under a rendered [LiveKitRoom]: the room's state, the
    sampler hook and the visualizer of [VoiceInterface]. *)
Record Subtree := {
  room_state : ConnectionState;
  sampler : AudioAnalyzer.Hook;
  visualizer : RadialVisualizer.Visualizer
}.

(** A mounted [VoiceAgent] and, while it renders the room, the subtree. *)
Record Tree := {
  agent : VoiceAgent.State;
  subtree : option Subtree
}.

(** The effect cleanups of the sources' components under [LiveKitRoom],
    in the order React runs them when the subtree is deleted (a parent
    before its children, a component's effects in declaration order):
    those of [VoiceInterface] (the data listener, then the two of
    [useAudioAnalyzer]), then that of [RadialVisualizer]. *)
Definition components_cleanup (s : Subtree) : list Action :=
  VoiceInterface.unsubscribe
  ++ snd (AudioAnalyzer.step (sampler s) AudioAnalyzer.Unmount)
  ++ snd (RadialVisualizer.cleanup (visualizer s)).

(** Unmounting the tree.  [VoiceAgent] has one effect, the mount effect,
    which returns no cleanup.  [LiveKitRoom] and [RoomAudioRenderer] are
    library components whose code is not in these sources: [room_cleanup]
    and [audio_cleanup] stand for whatever their cleanups call, the first
    before [VoiceInterface] (a child of [LiveKitRoom]), the second after
    it (a later sibling). *)
Definition unmount (room_cleanup audio_cleanup : list Action) (t : Tree)
  : list Action :=
  match subtree t with
  | Some s => room_cleanup ++ components_cleanup s ++ audio_cleanup
  | None => []
  end.

(** The phases in which the specification asks for a disconnect. *)
Definition live (s : ConnectionState) : bool :=
  match s with
  | Connecting | Connected | Reconnecting => true
  | Disconnected => false
  end.

(** Examples: the server URL of a configured deployment, an instance
    whose first token request returned [tok], and a connected page whose
    sampler and visualizer are running. *)
Definition example_url : option string := Some "wss://livekit.example"%string.

Definition ok_token (tok : string) : VoiceAgent.FetchOutcome :=
  VoiceAgent.FetchResponse true 200 (VoiceAgent.BodyData (Some tok)).

Definition room_with (tok : string) : VoiceAgent.View :=
  VoiceAgent.RoomView
    {| VoiceAgent.room_token := tok;
       VoiceAgent.room_serverUrl := "wss://livekit.example"%string;
       VoiceAgent.room_connect := true;
       VoiceAgent.room_audio := true;
       VoiceAgent.room_video := false |}.

Definition instance_with (tok : string) : VoiceAgent.State :=
  fst (VoiceAgent.life example_url [VoiceAgent.FetchSettled (ok_token tok)]).

Definition motion_host : AudioAnalyzer.Host :=
  {| AudioAnalyzer.has_window := true;
     AudioAnalyzer.has_matchMedia := true;
     AudioAnalyzer.reduced_motion_matches := false |}.

(** A connection is lost while the room is shown (the library reports the
    disconnect, then the error); the user clicks Retry before the
    reconnect timer fires, and the two token requests are answered one
    after the other. *)
Definition retry_meets_reconnect : list VoiceAgent.Event :=
  [VoiceAgent.FetchSettled (ok_token "jwt-0");
   VoiceAgent.RoomDisconnected None;
   VoiceAgent.RoomError "lost";
   VoiceAgent.ClickRetry;
   VoiceAgent.TimerFired;
   VoiceAgent.FetchSettled (ok_token "jwt-a");
   VoiceAgent.FetchSettled (ok_token "jwt-b")].

Definition connected_page : Tree :=
  {| agent := instance_with "jwt";
     subtree :=
       Some {| room_state := Connected;
               sampler := fst (AudioAnalyzer.mount motion_host
                                 (Some (AudioAnalyzer.a_track 1)));
               visualizer :=
                 fst (RadialVisualizer.start None RadialVisualizer.listening
                        (Some (360%R, 360%R))) |} |}.

End Page.

(* ================================================================== *)
(** * Properties *)
(* ================================================================== *)

(** ** The level in binary64 is never NaN and lies in the unit interval

    The argument follows the signs through the specification of the
    binary64 operations: a rounded non-negative mantissa is a non-negative
    value, so sums, quotients, square roots and products of non-negative
    values are non-negative, and in particular not NaN. *)
Module Binary64Facts.
Import Stdlib.Floats.Floats.
Import AudioAnalyzer AudioAnalyzer.Binary64.

Lemma shr_1_nonneg (mrs : shr_record) :
  (0 <= shr_m mrs)%Z -> (0 <= shr_m (shr_1 mrs))%Z.
Proof.
  destruct mrs as [m r s]. simpl.
  destruct m as [|[p|p|]|[p|p|]]; simpl; lia.
Qed.

Lemma iter_shr_1_nonneg (p : positive) : forall mrs,
  (0 <= shr_m mrs)%Z -> (0 <= shr_m (iter_pos shr_1 p mrs))%Z.
Proof.
  induction p as [p IH|p IH|]; intros mrs H; simpl.
  - apply IH, IH, shr_1_nonneg, H.
  - apply IH, IH, H.
  - apply shr_1_nonneg, H.
Qed.

Lemma shr_fexp_nonneg (m e : Z) (l : location) :
  (0 <= m)%Z -> (0 <= shr_m (fst (shr_fexp prec emax m e l)))%Z.
Proof.
  intros H. unfold shr_fexp, shr.
  assert (H0 : (0 <= shr_m (shr_record_of_loc m l))%Z).
  { destruct l as [|[]]; simpl; exact H. }
  destruct (_ - e)%Z; simpl; auto.
  apply iter_shr_1_nonneg, H0.
Qed.

Lemma round_nearest_even_nonneg (m : Z) (l : location) :
  (0 <= m)%Z -> (0 <= round_nearest_even m l)%Z.
Proof.
  intros H. unfold round_nearest_even.
  destruct l as [|[]]; try lia. destruct (Z.even m); lia.
Qed.

Lemma binary_round_aux_nonneg (m e : Z) (l : location) :
  (0 <= m)%Z -> nonneg (binary_round_aux prec emax false m e l) = true.
Proof.
  intros H. unfold binary_round_aux.
  pose proof (shr_fexp_nonneg e l H) as H1.
  destruct (shr_fexp prec emax m e l) as [mrs' e']. simpl in H1.
  pose proof (round_nearest_even_nonneg (loc_of_shr_record mrs') H1) as H2.
  pose proof (shr_fexp_nonneg e' loc_Exact H2) as H3.
  destruct (shr_fexp prec emax _ e' loc_Exact) as [mrs'' e'']. simpl in H3.
  destruct (shr_m mrs'') as [|p|p]; [reflexivity | | lia].
  destruct (Z.leb _ _); reflexivity.
Qed.

Lemma SFadd_nonneg (x y : spec_float) :
  nonneg x = true -> nonneg y = true -> nonneg (SF64add x y) = true.
Proof.
  destruct x as [[]|[]| |[] mx ex], y as [[]|[]| |[] my ey];
    simpl; try discriminate; try reflexivity; intros _ _.
  unfold binary_normalize, binary_round.
  destruct (shl_align mx ex _) as [a ea], (shl_align my ey _) as [b eb]. simpl.
  destruct (shl_align _ _ _) as [mz ez].
  apply binary_round_aux_nonneg. lia.
Qed.

Lemma SFmul_nonneg (x y : spec_float) :
  nonneg x = true -> positive_finite y = true -> nonneg (SF64mul x y) = true.
Proof.
  destruct x as [[]|[]| |[] mx ex], y as [[]|[]| |[] my ey];
    simpl; try discriminate; try reflexivity; intros _ _.
  apply binary_round_aux_nonneg. lia.
Qed.

Lemma SFdiv_nonneg (x y : spec_float) :
  nonneg x = true -> positive_finite y = true -> nonneg (SF64div x y) = true.
Proof.
  destruct x as [[]|[]| |[] mx ex], y as [[]|[]| |[] my ey];
    simpl; try discriminate; try reflexivity; intros _ _.
  unfold SFdiv_core_binary.
  set (m' := match _ with Z0 => _ | Zpos _ => _ | Zneg _ => _ end).
  assert (Hm : (0 <= m')%Z).
  { subst m'. destruct (_ - _ - _)%Z; try lia.
    apply Z.shiftl_nonneg. lia. }
  pose proof (Z_div_mod m' (Zpos my) eq_refl) as Hd.
  destruct (Z.div_eucl m' (Zpos my)) as [q r].
  apply binary_round_aux_nonneg. nia.
Qed.

Lemma SFsqrt_nonneg (x : spec_float) :
  nonneg x = true -> nonneg (SF64sqrt x) = true.
Proof.
  destruct x as [[]|[]| |[] mx ex]; simpl; try discriminate; try reflexivity;
    intros _.
  unfold SFsqrt_core_binary.
  set (m' := match _ with Z0 => _ | Zpos _ => _ | Zneg _ => _ end).
  pose proof (Z.sqrtrem_sqrt m') as Hs. pose proof (Z.sqrt_nonneg m') as Hn.
  destruct (Z.sqrtrem m') as [q r]. simpl in Hs. subst q.
  apply binary_round_aux_nonneg. exact Hn.
Qed.

Lemma nonneg_not_nan (x : float) :
  nonneg (Prim2SF x) = true -> PrimFloat.is_nan x = false.
Proof.
  unfold PrimFloat.is_nan. rewrite eqb_spec. unfold SFeqb.
  destruct (Prim2SF x) as [[]|[]| |[] m e]; simpl;
    try discriminate; try reflexivity.
  intros _. rewrite Z.compare_refl, Pos.compare_cont_refl. reflexivity.
Qed.

(** The square of each of the 256 normalized bytes, evaluated. *)
Lemma square_nonneg (b : byte) :
  nonneg (Prim2SF (let v := (byte_value b - 128) / 128 in v * v)%float) = true.
Proof. destruct b; vm_compute; reflexivity. Qed.

Lemma binary64_sum_squares_nonneg (time : list byte) : forall acc,
  nonneg (Prim2SF acc) = true ->
  nonneg (Prim2SF
            (fold_left
               (fun sum b => let v := (byte_value b - 128) / 128 in sum + v * v)%float
               time acc)) = true.
Proof.
  induction time as [|b time IH]; intros acc H; simpl.
  - exact H.
  - apply IH. rewrite add_spec. apply SFadd_nonneg; [exact H|].
    apply (square_nonneg b).
Qed.

Lemma fft_size_is_positive_finite (n : nat) :
  In n fft_sizes -> positive_finite (Prim2SF (of_nat n)) = true.
Proof.
  intros H. unfold fft_sizes in H.
  apply in_map_iff in H. destruct H as (k & <- & Hk).
  cbn [seq In] in Hk.
  repeat (destruct Hk as [<- | Hk]; [vm_compute; reflexivity|]).
  destruct Hk.
Qed.

(** Whenever the buffer length converts to a positive finite float, the
    level is a number between 0 and 1. *)
Lemma binary64_level_range (time : list byte) :
  positive_finite (Prim2SF (of_nat (List.length time))) = true ->
  in_unit_interval (Binary64.compute_level time) = true.
Proof.
  intros Hn. unfold Binary64.compute_level, in_unit_interval.
  set (x := (PrimFloat.sqrt _ * _)%float).
  assert (Hx : nonneg (Prim2SF x) = true).
  { subst x. rewrite mul_spec. apply SFmul_nonneg; [|reflexivity].
    rewrite sqrt_spec. apply SFsqrt_nonneg.
    rewrite div_spec. apply SFdiv_nonneg; [|exact Hn].
    apply binary64_sum_squares_nonneg. reflexivity. }
  unfold Math_min.
  change (PrimFloat.is_nan 1) with false. cbv iota.
  rewrite (nonneg_not_nan x Hx).
  destruct (PrimFloat.ltb x 1) eqn:Hlt; [|reflexivity].
  rewrite !leb_spec. rewrite ltb_spec in Hlt.
  unfold SFleb, SFltb in *.
  apply andb_true_intro. split.
  - change (Prim2SF 0) with (S754_zero false).
    destruct (Prim2SF x) as [[]|[]| |[] m e]; simpl in *;
      try discriminate; reflexivity.
  - destruct (SFcompare (Prim2SF x) (Prim2SF 1)) as [[]|];
      try discriminate; reflexivity.
Qed.

Lemma binary64_silence_and_square_wave (n : nat) :
  In n fft_sizes ->
  Binary64.compute_level (silent n) = PrimFloat.zero
  /\ forall low_first,
       Binary64.compute_level (square_wave low_first n) = PrimFloat.one.
Proof.
  intros H. unfold fft_sizes in H.
  apply in_map_iff in H. destruct H as (k & <- & Hk).
  cbn [seq In] in Hk.
  repeat (destruct Hk as [<- | Hk];
          [split; [|intros []]; vm_compute; reflexivity|]).
  destruct Hk.
Qed.

End Binary64Facts.

Module AudioAnalyzerFacts.
Import AudioAnalyzer.
Open Scope R_scope.

Lemma byte_value_range (b : byte) : 0 <= byte_value b <= 255.
Proof.
  unfold byte_value. pose proof (Byte.to_N_bounded b) as Hb.
  split.
  - apply IZR_le. lia.
  - apply IZR_le. lia.
Qed.

Lemma normalize_range (b : byte) : -1 <= normalize b <= 1.
Proof.
  unfold normalize. pose proof (byte_value_range b). lra.
Qed.

Lemma fold_squares_acc (l : list byte) (a : R) :
  fold_left (fun sum b => let v := normalize b in sum + v * v) l a
  = a + sum_squares l.
Proof.
  unfold sum_squares. revert a.
  induction l as [|b l IH]; intros a; simpl.
  - lra.
  - rewrite (IH (a + _)), (IH (0 + _)). lra.
Qed.

Lemma sum_squares_cons (b : byte) (l : list byte) :
  sum_squares (b :: l) = normalize b * normalize b + sum_squares l.
Proof.
  unfold sum_squares at 1. simpl. rewrite fold_squares_acc. lra.
Qed.

Lemma sum_squares_nonneg (l : list byte) : 0 <= sum_squares l.
Proof.
  induction l as [|b l IH].
  - unfold sum_squares. simpl. lra.
  - rewrite sum_squares_cons. nra.
Qed.

Lemma sum_squares_as_spec (l : list byte) :
  sum_squares l
  = fold_right Rplus 0 (map (fun x => x * x) (map Spec.remap l)).
Proof.
  induction l as [|b l IH].
  - reflexivity.
  - rewrite sum_squares_cons. simpl. rewrite IH. reflexivity.
Qed.

Lemma Rmin_as_clip (x : R) : Rmin 1 x = Spec.clip 1 x.
Proof.
  unfold Rmin, Spec.clip.
  destruct (Rle_dec 1 x), (Rle_dec x 1); lra.
Qed.

Lemma compute_level_range (l : list byte) : 0 <= compute_level l <= 1.
Proof.
  unfold compute_level, rms. split.
  - apply Rmin_glb; [lra|].
    pose proof (sqrt_pos (sum_squares l / INR (List.length l))). lra.
  - apply Rmin_l.
Qed.

(** C3.  For every time-domain buffer the frame loop can read (a
    non-empty one) the level it computes is the specification's formula:
    the root mean square of the bytes remapped by (b - 128) / 128, a map
    from [0,255] into [-1,1], times the gain 2.2, clipped to 1; and it
    lies in [0,1].  The same bounds hold of the value computed in
    binary64, for every buffer of a length that Web Audio admits. *)
Theorem level_is_clipped_gained_rms (time : list byte) :
  time <> [] ->
  compute_level time = Spec.level time
  /\ 0 <= compute_level time <= 1
  /\ Forall (fun b => -1 <= Spec.remap b <= 1) time
  /\ (In (List.length time) fft_sizes ->
      Binary64.in_unit_interval (Binary64.compute_level time) = true).
Proof.
  intros _. split; [|split; [|split]].
  - unfold compute_level, Spec.level, rms, Spec.root_mean_square, Spec.mean,
      Spec.gain.
    rewrite Rmin_as_clip, sum_squares_as_spec, !length_map.
    f_equal. lra.
  - apply compute_level_range.
  - apply Forall_forall. intros b _. apply normalize_range.
  - intros Hn. apply Binary64Facts.binary64_level_range.
    apply Binary64Facts.fft_size_is_positive_finite. exact Hn.
Qed.

Lemma level_is_clipped_gained_rms_witness :
  square_wave true 32 <> []
  /\ compute_level (square_wave true 32) = Spec.level (square_wave true 32)
  /\ Binary64.in_unit_interval (Binary64.compute_level (square_wave true 32))
     = true.
Proof.
  assert (Hne : square_wave true 32 <> []) by discriminate.
  destruct (level_is_clipped_gained_rms Hne) as (Heq & _ & _ & Hb).
  split; [exact Hne|]. split; [exact Heq|].
  apply Hb. left. reflexivity.
Defined.

Lemma normalize_x80 : normalize x80 = 0.
Proof.
  unfold normalize, byte_value.
  change (Z.of_N (Byte.to_N x80)) with 128%Z. lra.
Qed.

Lemma normalize_x00 : normalize x00 = -1.
Proof.
  unfold normalize, byte_value.
  change (Z.of_N (Byte.to_N x00)) with 0%Z. lra.
Qed.

Lemma normalize_xff : normalize xff = 127 / 128.
Proof.
  unfold normalize, byte_value.
  change (Z.of_N (Byte.to_N xff)) with 255%Z. lra.
Qed.

Lemma sum_squares_silent (n : nat) : sum_squares (silent n) = 0.
Proof.
  induction n as [|n IH].
  - reflexivity.
  - unfold silent in *. simpl repeat. rewrite sum_squares_cons, IH.
    rewrite normalize_x80. lra.
Qed.

Lemma sum_squares_square_wave (lo : bool) (n : nat) :
  INR n * (127 / 128 * (127 / 128)) <= sum_squares (square_wave lo n).
Proof.
  revert lo. induction n as [|n IH]; intros lo.
  - simpl. unfold sum_squares. simpl. lra.
  - rewrite S_INR. simpl square_wave. rewrite sum_squares_cons.
    specialize (IH (negb lo)).
    destruct lo; [rewrite normalize_x00 | rewrite normalize_xff];
      simpl negb in *; lra.
Qed.

(** C4.  A buffer of midpoint bytes (zero amplitude) has level exactly 0,
    and a full-scale square wave, alternating between the bytes 0 and 255
    from either phase, has level 1, the clip ceiling.  In binary64 the
    two values are computed exactly, 0 and 1, at every length that Web
    Audio admits. *)
Theorem level_of_silence_and_square_wave (n : nat) :
  (0 < n)%nat ->
  compute_level (silent n) = 0
  /\ (forall low_first, compute_level (square_wave low_first n) = 1)
  /\ (In n fft_sizes ->
      Binary64.compute_level (silent n) = PrimFloat.zero
      /\ forall low_first,
           Binary64.compute_level (square_wave low_first n) = PrimFloat.one).
Proof.
  intros Hn.
  assert (Hpos : 0 < INR n) by (apply lt_0_INR; exact Hn).
  split; [|split].
  - unfold compute_level, rms. rewrite sum_squares_silent.
    unfold Rdiv. rewrite Rmult_0_l, sqrt_0, Rmult_0_l.
    apply Rmin_right. lra.
  - intros lo. unfold compute_level, rms.
    apply Rmin_left.
    assert (Hlen : List.length (square_wave lo n) = n).
    { clear. revert lo. induction n as [|n IH]; intros lo; simpl; auto. }
    rewrite Hlen.
    pose proof (sum_squares_square_wave lo n) as Hs.
    assert (Hq : 127 / 128 * (127 / 128) <= sum_squares (square_wave lo n) / INR n).
    { apply (Rmult_le_reg_r (INR n)); [exact Hpos|].
      replace (sum_squares (square_wave lo n) / INR n * INR n)
        with (sum_squares (square_wave lo n)) by (field; lra).
      lra. }
    assert (Hr : 127 / 128 <= sqrt (sum_squares (square_wave lo n) / INR n)).
    { rewrite <- (sqrt_square (127 / 128)) by lra.
      apply sqrt_le_1_alt. exact Hq. }
    lra.
  - apply Binary64Facts.binary64_silence_and_square_wave.
Qed.

Lemma level_of_silence_and_square_wave_witness :
  compute_level (silent 1024) = 0
  /\ compute_level (square_wave true 1024) = 1.
Proof.
  destruct (level_of_silence_and_square_wave (n := 1024)) as (H0 & H1 & _).
  - apply Nat.ltb_lt. vm_compute. reflexivity.
  - split; [exact H0 | exact (H1 true)].
Defined.

(** On the empty buffer, which the hook never reads, the binary64 value
    is NaN. *)
Example level_of_empty_buffer :
  PrimFloat.is_nan (Binary64.compute_level []) = true.
Proof. vm_compute. reflexivity. Qed.

(** *** The hook *)















(** *** While the track is null no sample is emitted, whatever came
    before *)

Lemma effect_coherent (h : Hook) :
  analyserRef h = false -> loop_pending h = false ->
  coherent (fst (effect h)).
Proof.
  intros Ha Hp. unfold effect, coherent.
  destruct (mediaStreamTrack h) as [t|] eqn:Ht; simpl.
  - destruct (negb (supports_motion h)); simpl.
    + rewrite Ha, Hp. split; discriminate.
    + split; [discriminate | auto].
  - rewrite Ha, Hp. split; discriminate.
Qed.

Lemma cleanups_release (h : Hook) :
  coherent h ->
  analyserRef (fst (cleanups h)) = false
  /\ loop_pending (fst (cleanups h)) = false
  /\ data (fst (cleanups h)) = data h.
Proof.
  intros [_ Hp]. unfold cleanups, cleanup_refs, cleanup_effect.
  destruct h as [t sm d a an so r lp ca mo]; simpl in *.
  destruct ca; simpl; (split; [reflexivity|]); (split; [|reflexivity]);
    destruct r; try reflexivity;
    destruct lp; try reflexivity; destruct Hp; auto.
Qed.

Lemma step_coherent (h : Hook) (e : Event) :
  coherent h -> coherent (fst (step h e)).
Proof.
  intros Hc. unfold step.
  destruct (mounted h); simpl; [|exact Hc].
  destruct e as [t | f tm | host' | ].
  - destruct h as [tr sm d a an so r lp ca mo].
    unfold coherent in *; simpl in *. destruct Hc as [Hc1 Hc2].
    unfold cleanup_refs, cleanup_effect, effect, set_track; simpl.
    destruct t as [t|], tr as [tr|]; simpl;
      try destruct (Nat.eqb (track_id t) (track_id tr));
      try destruct (Nat.eqb (track_object t) (track_object tr));
      simpl; destruct ca, r, lp, an, sm; simpl;
      split; intros; try discriminate; intuition congruence.
  - destruct (loop_pending h) eqn:Hp; simpl; [|exact Hc].
    destruct Hc as [Hc1 Hc2]. destruct (Hc2 Hp) as [Ha Hr].
    unfold loop. rewrite Ha. simpl. unfold coherent; simpl.
    split; [intros _; apply Hc1, Ha | auto].
  - exact Hc.
  - destruct (cleanups_release Hc) as (Ha & Hp & _).
    destruct (cleanups h) as [h1 a1]; simpl in *.
    unfold coherent; simpl. rewrite Ha, Hp. split; discriminate.
Qed.

Lemma life_coherent (host : Host) (track : option Track) (es : list Event) :
  coherent (fst (life host track es)).
Proof.
  unfold life.
  assert (H0 : coherent (fst (mount host track))).
  { unfold mount. apply effect_coherent; reflexivity. }
  destruct (mount host track) as [h0 a0]; simpl in H0.
  revert h0 H0. induction es as [|e es IH]; intros h0 H0; simpl.
  - exact H0.
  - pose proof (step_coherent e H0) as H1.
    destruct (step h0 e) as [h1 a1]; simpl in H1.
    specialize (IH h1 H1).
    destruct (run h1 es) as [h2 a2]; simpl in *. exact IH.
Qed.

(** X8.  In every state a hook can reach, if its track is null then a display
    frame runs no code of the hook: the state, and with it the hook's
    output, is unchanged and nothing is called. *)
Lemma no_track_frame_is_idle (host : Host) (track : option Track)
    (es : list Event) (freq time : list byte) :
  mediaStreamTrack (fst (life host track es)) = None ->
  step (fst (life host track es)) (AnimationFrame freq time)
  = (fst (life host track es), []).
Proof.
  intros Hn. destruct (life_coherent host track es) as [H1 H2].
  unfold step. destruct (mounted _); [|reflexivity]. simpl.
  destruct (loop_pending _) eqn:Hp; [|reflexivity].
  destruct (H2 eq_refl) as [Ha _]. now apply H1 in Ha.
Qed.

(** The output is state, and detaching does not reset it: after a track
    has been sampled and then taken away, the hook keeps returning the
    last sample. *)
Remark detached_hook_keeps_last_sample (host : Host) (freq time : list byte) :
  supportsMotion host = true ->
  data (fst (life host (Some (a_track 1)) [AnimationFrame freq time; Render None]))
  = Some {| freq := freq; time := time; level := compute_level time |}.
Proof.
  intros Hs. unfold life, mount, effect; simpl. rewrite Hs. reflexivity.
Qed.

End AudioAnalyzerFacts.

Module RadialVisualizerFacts.
Import AudioAnalyzer RadialVisualizer.
Open Scope R_scope.

Lemma amp_without_data (i : nat) : amp None i = Some 0.
Proof. reflexivity. Qed.







End RadialVisualizerFacts.

Module VoiceInterfaceFacts.
Import VoiceInterface.
Open Scope string_scope.

(** X13.  What [handleDataReceived] does drop: a payload that is not JSON, a
    parsed [null], a value without a [state] property, a falsy [state], a
    message from the local participant or without a sender.  It is a
    total function: nothing is thrown past the [catch]. *)
Lemma handleDataReceived_drops (local : Participant) (st : State) :
  (forall sender, handleDataReceived local SyntaxError sender st = st)
  /\ (forall sender, handleDataReceived local (Parsed JsNull) sender st = st)
  /\ (forall sender data,
        read_state data = Undefined ->
        handleDataReceived local (Parsed data) sender st = st)
  /\ (forall sender data v,
        read_state data = Value v -> truthy v = false ->
        handleDataReceived local (Parsed data) sender st = st)
  /\ (forall payload, handleDataReceived local payload (Some local) st = st)
  /\ (forall payload, handleDataReceived local payload None st = st).
Proof.
  unfold handleDataReceived. repeat split.
  - intros [p|]; [destruct (negb _)|]; reflexivity.
  - intros [p|]; [destruct (negb _)|]; reflexivity.
  - intros [p|] data H; [destruct (negb _)|]; rewrite ?H; reflexivity.
  - intros [p|] data v H Hv; [destruct (negb _)|]; rewrite ?H, ?Hv; reflexivity.
  - intros payload. unfold same_participant. rewrite Nat.eqb_refl. reflexivity.
Qed.

(** X14.  Any change of the agent state by a message stores the truthy [state]
    value of the payload as it is. *)
Lemma handleDataReceived_cases (local : Participant) (payload : Parse)
    (sender : option Participant) (st : State) :
  handleDataReceived local payload sender st = st
  \/ exists data v,
       payload = Parsed data /\ read_state data = Value v /\ truthy v = true
       /\ handleDataReceived local payload sender st = setAgentState v st.
Proof.
  unfold handleDataReceived.
  destruct sender as [p|]; [|now left].
  destruct (negb (same_participant p local)); [|now left].
  destruct payload as [|data]; [now left|].
  destruct (read_state data) as [| |v] eqn:Hr; [now left | now left |].
  destruct (truthy v) eqn:Hv; [|now left].
  right. exists data, v. auto.
Qed.

(** C7, evaluated.  A message from the agent whose JSON is well formed but
    whose [state] is not one of the four values is not dropped: the value
    becomes the agent state.  The same holds for a [state] that is not a
    string. *)
Theorem unlisted_state_value_is_stored :
  let payload := Parsed (JsObject [("state", JsString "dancing")]) in
  let after := handleDataReceived user payload (Some agent) initial in
  agentState initial = JsString "idle"
  /\ agentState after = JsString "dancing"
  /\ enumerated (agentState after) = false
  /\ agentState
       (handleDataReceived user (Parsed (JsObject [("state", JsNumber 1)]))
                           (Some agent) initial)
     = JsNumber 1.
Proof. repeat split. Qed.

(** C10.  Whenever the remote participants or the tracks change, the agent
    state becomes ['listening'], whatever it was: in particular a state
    set by a data message just before is overwritten. *)
Theorem participants_or_tracks_change_resets_to_listening
    (remoteParticipants : list Participant) (tracks : list TrackRef)
    (st : State) :
  (agentState (participants_changed remoteParticipants tracks st)
   = JsString "listening"
   /\ agentState (tracks_changed tracks st) = JsString "listening")
  /\ (isListening (participants_changed remoteParticipants tracks st) = true
      /\ isListening (tracks_changed tracks st) = true)
  /\ forall local payload sender,
       agentState
         (participants_changed remoteParticipants tracks
            (handleDataReceived local payload sender st))
       = JsString "listening"
       /\ agentState
            (tracks_changed tracks (handleDataReceived local payload sender st))
          = JsString "listening".
Proof.
  assert (H : forall s, agentState (track_agent tracks s) = JsString "listening"
                        /\ isListening (track_agent tracks s) = true).
  { intros s. unfold track_agent.
    destruct (agentParticipantRef s) as [a|]; [|split; reflexivity].
    destruct (List.length _); split; reflexivity. }
  unfold participants_changed, tracks_changed.
  repeat split; intros; apply H.
Qed.

Example speaking_is_overwritten :
  let speaking := handleDataReceived user
                    (Parsed (JsObject [("state", JsString "speaking")]))
                    (Some agent) initial in
  agentState speaking = JsString "speaking"
  /\ agentState (participants_changed [agent] [] speaking)
     = JsString "listening"
  /\ agentState
       (tracks_changed
          [{| participant := Some agent; source := Microphone;
              track_media := Some (AudioAnalyzer.a_track 1) |}]
          (find_agent [agent] speaking))
     = JsString "listening".
Proof. repeat split. Qed.

End VoiceInterfaceFacts.

Module VoiceAgentFacts.
Import VoiceAgent.
Open Scope string_scope.

Lemma render_cases (serverUrl : option string) (st : State) :
  render serverUrl st =
    if isConnecting st || String.eqb (token st) "" then LoadingView
    else if negb (String.eqb (error st) "") then ErrorView (error st)
    else if configured serverUrl
         then RoomView {| room_token := token st;
                          room_serverUrl := match serverUrl with
                                            | Some url => url
                                            | None => ""
                                            end;
                          room_connect := true;
                          room_audio := true;
                          room_video := false |}
         else ConfigErrorView.
Proof.
  unfold render, configured.
  destruct (isConnecting st || String.eqb (token st) ""); [reflexivity|].
  destruct (negb (String.eqb (error st) "")); [reflexivity|].
  destruct serverUrl as [url|]; [|reflexivity].
  destruct (String.eqb url ""); reflexivity.
Qed.

Lemma opens_session_iff (serverUrl : option string) (st : State) :
  opens_session (render serverUrl st) = configured serverUrl && ready st.
Proof.
  rewrite render_cases. unfold ready.
  destruct (isConnecting st), (String.eqb (token st) ""),
    (String.eqb (error st) ""), (configured serverUrl); reflexivity.
Qed.

(** [fetchToken] has no retry of its own: when a request settles, with
    whatever outcome, the component asks nothing of its host, neither a
    new request nor a timer. *)
Lemma settled_fetch_asks_nothing (serverUrl : option string) (st : State)
    (o : FetchOutcome) :
  snd (step serverUrl st (FetchSettled o)) = [].
Proof.
  simpl. destruct (pending_fetches st); reflexivity.
Qed.

(** After the mount, a request is issued by the retry button while the
    error view is shown and by a pending timer, and by nothing else. *)
Lemma fetch_is_issued_by (serverUrl : option string) (st : State) (e : Event) :
  occurs (FetchToken roomName) (snd (step serverUrl st e)) =
    match e with
    | ClickRetry => offers_retry (render serverUrl st)
    | TimerFired => negb (Nat.eqb (pending_timers st) 0)
    | _ => false
    end.
Proof.
  destruct e as [o| | |reason|m|]; simpl.
  - destruct (pending_fetches st); reflexivity.
  - destruct (offers_retry _); reflexivity.
  - reflexivity.
  - destruct (shows_room _ && _); reflexivity.
  - destruct (shows_room _); reflexivity.
  - destruct (pending_timers st); reflexivity.
Qed.

(** After a failed request the view depends on the token held: with a
    token from an earlier request the error view and its retry button are
    shown; without one, the spinner. *)
Lemma view_after_failure (serverUrl : option string) (st : State)
    (o : FetchOutcome) (msg : string) :
  token_or_error o = inr msg -> msg <> "" ->
  render serverUrl (fetchToken_settles o st) =
    if String.eqb (token st) "" then LoadingView else ErrorView msg.
Proof.
  intros Ho Hmsg. unfold fetchToken_settles. rewrite Ho.
  unfold render; simpl.
  destruct (String.eqb (token st) ""); [reflexivity|].
  destruct (String.eqb_spec msg ""); [contradiction | reflexivity].
Qed.

(** C9, evaluated.  The first token request of a mounted component fails
    (HTTP status 500, or a body without a token): the message is stored,
    but the component renders the spinner, not the error view, and offers
    no retry, whatever the server URL; no request or timer is pending, so
    nothing will change it. *)
Theorem first_token_failure_shows_spinner (serverUrl : option string) :
  let http500 := FetchSettled (FetchResponse false 500 (BodyData None)) in
  let no_token := FetchSettled (FetchResponse true 200 (BodyData None)) in
  error (fst (life serverUrl [http500])) = "Token fetch failed: 500"
  /\ render serverUrl (fst (life serverUrl [http500])) = LoadingView
  /\ offers_retry (render serverUrl (fst (life serverUrl [http500]))) = false
  /\ snd (life serverUrl [http500]) = [FetchToken roomName]
  /\ pending_fetches (fst (life serverUrl [http500])) = 0%nat
  /\ pending_timers (fst (life serverUrl [http500])) = 0%nat
  /\ error (fst (life serverUrl [no_token])) = "No token received"
  /\ render serverUrl (fst (life serverUrl [no_token])) = LoadingView.
Proof. repeat split. Qed.

(** C8, as stated, fails: with no user action at all, mounting issues the
    token request, and when the token arrives the room view is rendered
    with [connect] set. *)
Lemma mount_alone_fetches_and_connects :
  let es := [FetchSettled (FetchResponse true 200 (BodyData (Some "jwt")))] in
  let url := Some "wss://livekit.example" in
  existsb is_user_action es = false
  /\ occurs (FetchToken roomName) (snd mount) = true
  /\ occurs (FetchToken roomName) (snd (life url es)) = true
  /\ opens_session (render url (fst (life url es))) = true.
Proof. repeat split. Qed.

(** C8, amended.  The session starts when the component is mounted:
    mounting alone issues the token request and shows the waiting view,
    and a token that arrives is handed to the room with [connect] set as
    soon as a server URL is configured, all without a user action.  After
    the mount a request is issued by two things only: the retry button,
    the one user action, when the error view is shown, and the timer set
    after a disconnect. *)
Theorem session_starts_on_mount (serverUrl : option string) :
  snd mount = [FetchToken roomName]
  /\ isConnecting (fst mount) = true
  /\ render serverUrl (fst mount) = LoadingView
  /\ (forall tok status,
        tok <> "" ->
        let es := [FetchSettled (FetchResponse true status (BodyData (Some tok)))] in
        existsb is_user_action es = false
        /\ opens_session (render serverUrl (fst (life serverUrl es)))
           = configured serverUrl)
  /\ (forall st e,
        occurs (FetchToken roomName) (snd (step serverUrl st e)) =
          match e with
          | ClickRetry => offers_retry (render serverUrl st)
          | TimerFired => negb (Nat.eqb (pending_timers st) 0)
          | _ => false
          end).
Proof.
  repeat split.
  - rewrite opens_session_iff. unfold life, ready; simpl.
    unfold fetchToken_settles, token_or_error.
    destruct (String.eqb_spec tok "") as [|Hne]; [contradiction|].
    simpl. destruct (String.eqb_spec tok ""); [contradiction|].
    simpl. now destruct (configured serverUrl).
  - intros st e. apply fetch_is_issued_by.
Qed.

End VoiceAgentFacts.

Module PageFacts.
Import Page.
Open Scope string_scope.

(** C1.  The component has no connection guard.  On the page's single
    [VoiceAgent]: the room is shown with the first token; the connection
    is lost, which schedules the reconnect timer and shows the error view;
    the user clicks Retry and the timer fires, and neither [fetchToken]
    call is held back: two token requests are in flight together.  The
    first answer renders [LiveKitRoom] with [connect] set and the token
    [jwt-a] while the other request is still in flight; the second answer
    hands the rendered room the token [jwt-b], again with [connect] set.
    No waiting view stands between the two connects. *)
Theorem second_connect_is_not_held_back :
  VoiceAgent.views example_url retry_meets_reconnect
  = [VoiceAgent.LoadingView;
     room_with "jwt-0";
     room_with "jwt-0";
     VoiceAgent.ErrorView "lost";
     VoiceAgent.LoadingView;
     VoiceAgent.LoadingView;
     room_with "jwt-a";
     room_with "jwt-b"]
  /\ snd (VoiceAgent.life example_url retry_meets_reconnect)
     = [FetchToken VoiceAgent.roomName; SetTimeout 2000;
        FetchToken VoiceAgent.roomName; FetchToken VoiceAgent.roomName]
  /\ VoiceAgent.pending_fetches
       (fst (VoiceAgent.life example_url (firstn 5 retry_meets_reconnect)))
     = 2
  /\ VoiceAgent.pending_fetches
       (fst (VoiceAgent.life example_url (firstn 6 retry_meets_reconnect)))
     = 1
  /\ VoiceAgent.opens_session (room_with "jwt-a") = true
  /\ VoiceAgent.opens_session (room_with "jwt-b") = true.
Proof. repeat split. Qed.

Lemma occurs_app (a : Action) (l1 l2 : list Action) :
  occurs a (l1 ++ l2) = occurs a l1 || occurs a l2.
Proof. unfold occurs. apply existsb_app. Qed.

Lemma sampler_unmount_actions (h : AudioAnalyzer.Hook) :
  let tr := snd (AudioAnalyzer.step h AudioAnalyzer.Unmount) in
  occurs TransportDisconnect tr = false
  /\ occurs ClearGuardFlag tr = false.
Proof.
  destruct h as [t sm d a an so r lp ca mo]. simpl.
  destruct a, an, so, r, lp, ca, mo; split; reflexivity.
Qed.

Lemma visualizer_cleanup_actions (v : RadialVisualizer.Visualizer) :
  occurs TransportDisconnect (snd (RadialVisualizer.cleanup v)) = false
  /\ occurs ClearGuardFlag (snd (RadialVisualizer.cleanup v)) = false.
Proof.
  unfold RadialVisualizer.cleanup; simpl.
  destruct (RadialVisualizer.raf v); split; reflexivity.
Qed.

Lemma components_request_no_disconnect (s : Subtree) :
  occurs TransportDisconnect (components_cleanup s) = false
  /\ occurs ClearGuardFlag (components_cleanup s) = false.
Proof.
  unfold components_cleanup, VoiceInterface.unsubscribe.
  destruct (sampler_unmount_actions (sampler s)) as [H1 H2].
  cbv zeta in H1, H2.
  destruct (visualizer_cleanup_actions (visualizer s)) as [V1 V2].
  rewrite !occurs_app, H1, H2, V1, V2. split; reflexivity.
Qed.

(** C2.  Unmounting the connected page, with its sampler and its visualizer
    running, makes the sources' components stop sampling and rendering and
    nothing more: the data listener is removed, the sampler's frame
    callback is cancelled, source, analyser and context are released by
    both cleanups of the hook, and the render frame is cancelled.  They
    request no transport disconnect and clear no guard flag, in this
    phase or in any other: in the trace of an unmount a disconnect occurs
    only if one of the two library components issues it. *)
Theorem unmount_requests_no_disconnect
    (room_cleanup audio_cleanup : list Action) (t : Tree) :
  option_map (fun s => live (room_state s)) (subtree connected_page) = Some true
  /\ unmount room_cleanup audio_cleanup connected_page
     = (room_cleanup
        ++ [RoomOffDataReceived;
            CancelAnimationFrame SamplerLoop; DisconnectSource;
            DisconnectAnalyser; CloseAudioContext;
            DisconnectSource; DisconnectAnalyser; CloseAudioContext;
            CancelAnimationFrame RenderLoop]
        ++ audio_cleanup)%list
  /\ occurs TransportDisconnect (unmount [] [] connected_page) = false
  /\ occurs ClearGuardFlag (unmount [] [] connected_page) = false
  /\ precedes TransportDisconnect ClearGuardFlag
       (unmount [] [] connected_page) = false
  /\ occurs TransportDisconnect (unmount room_cleanup audio_cleanup t)
     = match subtree t with
       | Some _ => occurs TransportDisconnect room_cleanup
                   || occurs TransportDisconnect audio_cleanup
       | None => false
       end
  /\ occurs ClearGuardFlag (unmount room_cleanup audio_cleanup t)
     = match subtree t with
       | Some _ => occurs ClearGuardFlag room_cleanup
                   || occurs ClearGuardFlag audio_cleanup
       | None => false
       end.
Proof.
  split; [reflexivity|]. split; [reflexivity|].
  split; [reflexivity|]. split; [reflexivity|]. split; [reflexivity|].
  unfold unmount. destruct (subtree t) as [s|]; [|split; reflexivity].
  destruct (components_request_no_disconnect s) as [H1 H2].
  rewrite !occurs_app, H1, H2. split; reflexivity.
Qed.

End PageFacts.

(* ================================================================== *)
(** * Further properties of the sources *)
(* ================================================================== *)

(** ** The level as a function of the buffer *)
Module LevelFacts.
Import AudioAnalyzer AudioAnalyzerFacts.
Open Scope R_scope.

Lemma byte_value_128 (b : byte) : byte_value b = 128 -> b = x80.
Proof.
  unfold byte_value. intros H. apply eq_IZR in H.
  assert (Hn : Byte.to_N b = 128%N) by lia.
  pose proof (Byte.of_to_N b) as Hb. rewrite Hn in Hb.
  simpl in Hb. congruence.
Qed.

Lemma sum_squares_app (a b : list byte) :
  sum_squares (a ++ b) = sum_squares a + sum_squares b.
Proof.
  induction a as [|x a IH]; simpl app.
  - unfold sum_squares at 2. simpl. lra.
  - rewrite !sum_squares_cons, IH. lra.
Qed.

Lemma sum_squares_zero (l : list byte) :
  sum_squares l = 0 -> Forall (fun b => b = x80) l.
Proof.
  induction l as [|b l IH]; intros H.
  - constructor.
  - rewrite sum_squares_cons in H.
    pose proof (sum_squares_nonneg l) as Hl.
    assert (Hb : normalize b * normalize b = 0) by nra.
    assert (Hs : sum_squares l = 0) by nra.
    constructor; [|apply IH, Hs].
    apply byte_value_128.
    apply Rmult_integral in Hb. unfold normalize in Hb. lra.
Qed.

Lemma level_zero_rms_zero (time : list byte) :
  compute_level time = 0 -> rms time = 0.
Proof.
  unfold compute_level, Rmin. destruct (Rle_dec 1 (rms time * 2.2)); lra.
Qed.

(** X1.  The level is 0 for silence only: on a non-empty buffer the level is 0
    exactly when every byte is the midpoint 128. *)
Theorem level_zero_iff_silence (time : list byte) :
  time <> [] ->
  (compute_level time = 0 <-> Forall (fun b => b = x80) time).
Proof.
  intros Hne.
  assert (Hn : 0 < INR (List.length time)).
  { apply lt_0_INR. destruct time; [contradiction | simpl; lia]. }
  split.
  - intros H. apply level_zero_rms_zero in H. unfold rms in H.
    apply sum_squares_zero.
    pose proof (sum_squares_nonneg time) as Hs.
    assert (Hq : 0 <= sum_squares time / INR (List.length time)).
    { apply Rmult_le_pos; [exact Hs|].
      apply Rlt_le, Rinv_0_lt_compat, Hn. }
    apply sqrt_eq_0 in H; [|exact Hq].
    replace (sum_squares time)
      with (sum_squares time / INR (List.length time) * INR (List.length time))
      by (field; lra).
    rewrite H. lra.
  - intros Hall.
    assert (Heq : time = silent (List.length time)).
    { clear Hne Hn. induction Hall as [|b l Hb _ IH]; [reflexivity|].
      subst b. unfold silent in *. simpl. f_equal. exact IH. }
    rewrite Heq. unfold compute_level, rms. rewrite sum_squares_silent.
    unfold Rdiv. rewrite Rmult_0_l, sqrt_0, Rmult_0_l.
    apply Rmin_right. lra.
Qed.

Lemma level_zero_iff_silence_witness :
  [x80; x80] <> []
  /\ (compute_level [x80; x80] = 0 <-> Forall (fun b => b = x80) [x80; x80]).
Proof.
  assert (Hne : [x80; x80] <> []) by discriminate.
  split; [exact Hne|]. exact (level_zero_iff_silence Hne).
Defined.

Lemma sum_squares_repeat (b : byte) (n : nat) :
  sum_squares (repeat b n) = INR n * (normalize b * normalize b).
Proof.
  induction n as [|n IH].
  - simpl. unfold sum_squares. simpl. lra.
  - rewrite S_INR. simpl repeat. rewrite sum_squares_cons, IH. lra.
Qed.

(** X2.  A constant buffer reads as loudness: the level of a non-empty buffer
    holding one byte [b] throughout is the distance of [b] from the
    midpoint, |b - 128| / 128, times the gain and clipped, whatever the
    length of the buffer. *)
Theorem level_of_constant_buffer (b : byte) (n : nat) :
  (0 < n)%nat ->
  compute_level (repeat b n) = Rmin 1 (Rabs (normalize b) * 2.2).
Proof.
  intros Hn. assert (Hpos : 0 < INR n) by (apply lt_0_INR; exact Hn).
  unfold compute_level, rms.
  rewrite sum_squares_repeat, repeat_length.
  replace (INR n * (normalize b * normalize b) / INR n)
    with (Rsqr (normalize b)) by (unfold Rsqr; field; lra).
  rewrite sqrt_Rsqr_abs. reflexivity.
Qed.

Lemma level_of_constant_buffer_witness :
  (0 < 32)%nat
  /\ compute_level (repeat xff 32) = Rmin 1 (Rabs (normalize xff) * 2.2).
Proof.
  assert (Hn : (0 < 32)%nat) by (apply Nat.ltb_lt; reflexivity).
  split; [exact Hn|]. exact (level_of_constant_buffer xff Hn).
Defined.

Lemma sum_squares_permutation (a b : list byte) :
  Permutation a b -> sum_squares a = sum_squares b.
Proof.
  induction 1 as [|x l l' _ IH|x y l|l l' l'' _ IH1 _ IH2].
  - reflexivity.
  - rewrite !sum_squares_cons, IH. reflexivity.
  - rewrite !sum_squares_cons. lra.
  - congruence.
Qed.

(** X3.  The level does not depend on where the samples sit in the buffer,
    only on which samples there are: buffers that are permutations of one
    another have the same level (so the phase at which a periodic signal
    is captured does not matter), and playing a buffer twice in a row
    gives the level of playing it once. *)
Theorem level_ignores_order_and_repetition (time time' : list byte) :
  time <> [] ->
  (Permutation time time' -> compute_level time = compute_level time')
  /\ compute_level (time ++ time) = compute_level time.
Proof.
  intros Hne. split.
  - intros Hp. unfold compute_level, rms.
    rewrite (sum_squares_permutation Hp), (Permutation_length Hp). reflexivity.
  - unfold compute_level, rms.
    rewrite sum_squares_app, length_app, plus_INR.
    assert (Hpos : 0 < INR (List.length time)).
    { apply lt_0_INR. destruct time; [contradiction | simpl; lia]. }
    do 3 f_equal. field. lra.
Qed.

Lemma level_ignores_order_and_repetition_witness :
  [x00; xff; x80] <> []
  /\ compute_level [x00; xff; x80] = compute_level [x80; x00; xff]
  /\ compute_level ([x00; xff; x80] ++ [x00; xff; x80])
     = compute_level [x00; xff; x80].
Proof.
  assert (Hne : [x00; xff; x80] <> []) by discriminate.
  destruct (@level_ignores_order_and_repetition
              [x00; xff; x80] [x80; x00; xff] Hne) as [Hp Hr].
  split; [exact Hne|]. split; [|exact Hr].
  apply Hp.
  apply Permutation_sym.
  apply (Permutation_cons_app [x00; xff] [] x80).
  rewrite app_nil_r. apply Permutation_refl.
Defined.

End LevelFacts.

(** ** The sampler hook over its whole life *)
Module SamplerFacts.
Import AudioAnalyzer AudioAnalyzerFacts.
Open Scope R_scope.

Lemma run_app (es1 es2 : list Event) : forall h,
  run h (es1 ++ es2) =
    (fst (run (fst (run h es1)) es2),
     snd (run h es1) ++ snd (run (fst (run h es1)) es2)).
Proof.
  induction es1 as [|e es1 IH]; intros h; simpl.
  - now destruct (run h es2).
  - destruct (step h e) as [h1 a1]. rewrite IH.
    destruct (run h1 es1) as [h2 a2]; simpl.
    destruct (run h2 es2) as [h3 a3]; simpl.
    now rewrite app_assoc.
Qed.

Lemma cleanups_data (h : Hook) : data (fst (cleanups h)) = data h.
Proof.
  unfold cleanups, cleanup_refs, cleanup_effect.
  destruct h as [t sm d a an so r lp ca mo]; simpl. now destruct ca.
Qed.

Lemma effect_data (h : Hook) : data (fst (effect h)) = data h.
Proof.
  unfold effect. destruct (mediaStreamTrack h); [|reflexivity].
  now destruct (negb (supports_motion h)).
Qed.

Lemma sample_sound (freq time : list byte) : sound (Some (sample freq time)).
Proof. simpl. split; [reflexivity | apply compute_level_range]. Qed.

Lemma step_sound (h : Hook) (e : Event) :
  sound (data h) -> sound (data (fst (step h e))).
Proof.
  intros Hs. unfold step.
  destruct (mounted h); simpl; [|exact Hs].
  destruct e as [t | f tm | host' | ].
  - destruct h as [tr sm d a an so r lp ca mo]; simpl in *.
    unfold cleanup_refs, cleanup_effect, effect, set_track; simpl.
    destruct (negb (same_id t tr)), (negb (same_object t tr)), ca, t, sm;
      simpl; exact Hs.
  - destruct (loop_pending h); [|exact Hs].
    unfold loop. destruct (negb (analyserRef h)); simpl; [exact Hs|].
    apply (sample_sound f tm).
  - exact Hs.
  - pose proof (cleanups_data h) as Hc.
    destruct (cleanups h) as [h1 a1]; simpl in *. rewrite Hc. exact Hs.
Qed.

Lemma outputs_sound (host : Host) (track : option Track) (es : list Event) :
  Forall sound (outputs (fst (mount host track)) es).
Proof.
  assert (H0 : sound (data (fst (mount host track)))).
  { unfold mount. rewrite effect_data. exact I. }
  revert H0. generalize (fst (mount host track)) as h.
  induction es as [|e es IH]; intros h Hs; simpl.
  - constructor; [exact Hs | constructor].
  - constructor; [exact Hs|]. apply IH, step_sound, Hs.
Qed.

(** X4.  Whatever happens to a hook (tracks attached, changed and removed,
    frames, unmounting) every value it returns is [null] or a sample
    whose level is the level of that sample's own time-domain buffer, a
    number in [0,1]: no sample pairs the level of one frame with the
    buffers of another. *)
Theorem every_output_is_sound
    (host : Host) (track : option Track) (es : list Event) :
  Forall sound (outputs (fst (mount host track)) es).
Proof. apply outputs_sound. Qed.

Lemma mount_running (host : Host) (t : Track) :
  supportsMotion host = true ->
  running (fst (mount host (Some t)))
  /\ data (fst (mount host (Some t))) = None
  /\ mediaStreamTrack (fst (mount host (Some t))) = Some t
  /\ snd (mount host (Some t)) = start_actions.
Proof.
  intros Hs. unfold mount, effect; simpl. rewrite Hs. simpl.
  unfold running; simpl. repeat split; reflexivity.
Qed.

Lemma frame_running (h : Hook) (freq time : list byte) :
  running h ->
  step h (AnimationFrame freq time)
  = (setData (Some (sample freq time)) h, [RequestAnimationFrame SamplerLoop]).
Proof.
  destruct h as [t sm d a an so r lp ca mo]. unfold running; simpl.
  intros (-> & -> & -> & -> & -> & -> & -> & ->). reflexivity.
Qed.

Lemma frames_running (bs : list (list byte * list byte)) : forall h,
  running h ->
  running (fst (run h (frames bs)))
  /\ mediaStreamTrack (fst (run h (frames bs))) = mediaStreamTrack h
  /\ outputs h (frames bs)
     = data h :: map (fun b => Some (sample (fst b) (snd b))) bs
  /\ snd (run h (frames bs))
     = repeat (RequestAnimationFrame SamplerLoop) (List.length bs).
Proof.
  induction bs as [|[f t] bs IH]; intros h Hr; simpl.
  - split; [exact Hr|]. split; [reflexivity|]. split; reflexivity.
  - rewrite (frame_running f t Hr). simpl.
    assert (Hr' : running (setData (Some (sample f t)) h)) by exact Hr.
    destruct (IH _ Hr') as (H1 & H2 & H3 & H4).
    destruct (run (setData (Some (sample f t)) h) (frames bs)) as [h2 a2].
    simpl in *. rewrite H3, H4.
    split; [exact H1|]. split; [exact H2|]. split; reflexivity.
Qed.

(** X5.  With a track, on a host that supports motion, the sampler works frame
    by frame: mounting creates one context, analyser and source and asks
    for the first frame; then each display frame yields exactly the
    sample of that frame's buffers and asks for the next frame, and
    nothing else is called. *)
Theorem running_sampler_emits_each_frame
    (host : Host) (t : Track) (bs : list (list byte * list byte)) :
  supportsMotion host = true ->
  outputs (fst (mount host (Some t))) (frames bs)
  = None :: map (fun b => Some (sample (fst b) (snd b))) bs
  /\ snd (life host (Some t) (frames bs))
     = start_actions
       ++ repeat (RequestAnimationFrame SamplerLoop) (List.length bs).
Proof.
  intros Hs. destruct (mount_running host t Hs) as (Hr & Hd & _ & Ha).
  destruct (frames_running bs Hr) as (_ & _ & Ho & Htr).
  rewrite Hd in Ho. split; [exact Ho|].
  unfold life. destruct (mount host (Some t)) as [h0 a0]; simpl in *.
  destruct (run h0 (frames bs)) as [h1 a1]; simpl in *. now subst.
Qed.

Lemma running_sampler_emits_each_frame_witness :
  supportsMotion motion_host_on = true
  /\ snd (life motion_host_on (Some (a_track 1)) (frames [([], [x80]); ([], [xff])]))
     = start_actions ++ repeat (RequestAnimationFrame SamplerLoop) 2.
Proof.
  split; [reflexivity|].
  exact (proj2 (@running_sampler_emits_each_frame
                  motion_host_on (a_track 1) [([], [x80]); ([], [xff])]
                  eq_refl)).
Defined.

Lemma life_running (host : Host) (t : Track)
    (bs : list (list byte * list byte)) :
  supportsMotion host = true ->
  running (fst (life host (Some t) (frames bs)))
  /\ mediaStreamTrack (fst (life host (Some t) (frames bs))) = Some t.
Proof.
  intros Hs. destruct (mount_running host t Hs) as (Hr & _ & Ht & _).
  destruct (frames_running bs Hr) as (H1 & H2 & _ & _).
  unfold life. destruct (mount host (Some t)) as [h0 a0]; simpl in *.
  destruct (run h0 (frames bs)) as [h1 a1]; simpl in *.
  split; [exact H1 | congruence].
Qed.

Lemma running_track_events (h : Hook) (t t' : Track) :
  running h -> mediaStreamTrack h = Some t ->
  track_object t' <> track_object t ->
  step h (Render (Some t)) = (h, [])
  /\ (track_id t' <> track_id t ->
      snd (step h (Render (Some t'))) = release_actions ++ start_actions)
  /\ (track_id t' = track_id t ->
      snd (step h (Render (Some t')))
      = effect_release_actions ++ start_actions)
  /\ running (fst (step h (Render (Some t'))))
  /\ mediaStreamTrack (fst (step h (Render (Some t')))) = Some t'
  /\ snd (step h (Render None)) = release_actions
  /\ data (fst (step h (Render None))) = data h
  /\ snd (step h Unmount) = release_actions.
Proof.
  destruct h as [tr sm d a an so r lp ca mo]. unfold running; simpl.
  intros (-> & -> & -> & -> & -> & -> & -> & ->) -> Hne.
  apply Nat.eqb_neq in Hne.
  unfold step; simpl. rewrite !Nat.eqb_refl, Hne. simpl.
  split; [reflexivity|].
  split; [intros Hid; apply Nat.eqb_neq in Hid; rewrite Hid; reflexivity|].
  split; [intros Hid; rewrite Hid, Nat.eqb_refl; reflexivity|].
  destruct (Nat.eqb (track_id t') (track_id t)); simpl;
    repeat split; reflexivity.
Qed.

(** X6.  A running sampler and its track.  A render with the same track
    object restarts nothing.  A render with another track object whose id
    differs runs both cleanups: it cancels the frame callback, releases
    source, analyser and context (each asked twice), and only then creates
    the new context.  A render with another track object that carries the
    same id runs the cleanup of the second effect alone: the frame callback
    is cancelled and source, analyser and context are released once, then
    the new context is created.  Either way the sampler runs again, on the
    new track.  Taking the track away, or unmounting, releases everything
    and starts nothing; the last sample stays the hook's value. *)
Theorem track_change_releases_before_it_starts
    (host : Host) (t t' : Track) (bs : list (list byte * list byte)) :
  supportsMotion host = true ->
  track_object t' <> track_object t ->
  step (fst (life host (Some t) (frames bs))) (Render (Some t))
  = (fst (life host (Some t) (frames bs)), [])
  /\ (track_id t' <> track_id t ->
      snd (step (fst (life host (Some t) (frames bs))) (Render (Some t')))
      = release_actions ++ start_actions)
  /\ (track_id t' = track_id t ->
      snd (step (fst (life host (Some t) (frames bs))) (Render (Some t')))
      = effect_release_actions ++ start_actions)
  /\ running (fst (step (fst (life host (Some t) (frames bs)))
                        (Render (Some t'))))
  /\ mediaStreamTrack (fst (step (fst (life host (Some t) (frames bs)))
                                 (Render (Some t')))) = Some t'
  /\ snd (step (fst (life host (Some t) (frames bs))) (Render None))
     = release_actions
  /\ data (fst (step (fst (life host (Some t) (frames bs))) (Render None)))
     = data (fst (life host (Some t) (frames bs)))
  /\ snd (step (fst (life host (Some t) (frames bs))) Unmount)
     = release_actions.
Proof.
  intros Hs Hne. destruct (life_running host t bs Hs) as [Hr Ht].
  exact (@running_track_events _ t t' Hr Ht Hne).
Qed.

Lemma track_change_releases_before_it_starts_witness :
  supportsMotion motion_host_on = true
  /\ track_object {| track_object := 2; track_id := 1 |}
     <> track_object (a_track 1)
  /\ snd (step (fst (life motion_host_on (Some (a_track 1))
                       (frames [([], [x80])])))
               (Render (Some {| track_object := 2; track_id := 1 |})))
     = effect_release_actions ++ start_actions.
Proof.
  assert (Hne : track_object {| track_object := 2; track_id := 1 |}
                <> track_object (a_track 1)) by discriminate.
  split; [reflexivity|]. split; [exact Hne|].
  exact (proj1 (proj2 (proj2 (@track_change_releases_before_it_starts
                         motion_host_on (a_track 1)
                         {| track_object := 2; track_id := 1 |}
                         [([], [x80])] eq_refl Hne))) eq_refl).
Defined.

Lemma no_track_frame_is_idle_witness :
  mediaStreamTrack
    (fst (life motion_host_on (Some (a_track 1))
            [AnimationFrame [] [x80]; Render None])) = None
  /\ snd (step (fst (life motion_host_on (Some (a_track 1))
                       [AnimationFrame [] [x80]; Render None]))
               (AnimationFrame [] [xff])) = [].
Proof.
  split; [reflexivity|].
  rewrite (@no_track_frame_is_idle motion_host_on (Some (a_track 1))
             [AnimationFrame [] [x80]; Render None] [] [xff] eq_refl).
  reflexivity.
Defined.

(** *** Audio contexts are opened one at a time and closed *)

Lemma scan_app (l1 l2 : list Action) : forall o,
  scan o (l1 ++ l2)
  = match scan o l1 with Some o1 => scan o1 l2 | None => None end.
Proof.
  induction l1 as [|a l1 IH]; intros o; simpl; [reflexivity|].
  destruct a; try apply IH. destruct o; [reflexivity | apply IH].
Qed.

Lemma step_tracked (h : Hook) (e : Event) (o : bool) :
  tracked o h ->
  exists o1, scan o (snd (step h e)) = Some o1
             /\ tracked o1 (fst (step h e)).
Proof.
  destruct h as [tr sm d a an so r lp ca mo]. unfold tracked; simpl.
  intros Ht. unfold step; simpl.
  destruct mo; simpl; [|exists o; split; [reflexivity | exact Ht]].
  destruct e as [t | f tm | host' | ]; simpl.
  - unfold cleanup_refs, cleanup_effect, effect, set_track; simpl.
    destruct (negb (same_id t tr)), (negb (same_object t tr)),
      ca, t, sm, a, an, so, r, o; simpl;
      try (destruct (Ht eq_refl) as [Hca _]; discriminate Hca);
      eexists; (split; [reflexivity|]); intros Ho;
      try discriminate Ho; split; reflexivity.
  - exists o. destruct lp; simpl; [|split; [reflexivity | exact Ht]].
    unfold loop; simpl. destruct an; simpl; split; auto.
  - exists o. split; [reflexivity | exact Ht].
  - unfold cleanups, cleanup_refs, cleanup_effect; simpl.
    destruct ca, a, an, so, r, o; simpl;
      try (destruct (Ht eq_refl) as [Hca _]; discriminate Hca);
      eexists; (split; [reflexivity|]); intros Ho; discriminate Ho.
Qed.

Lemma run_tracked (es : list Event) : forall h o,
  tracked o h ->
  exists o1, scan o (snd (run h es)) = Some o1
             /\ tracked o1 (fst (run h es)).
Proof.
  induction es as [|e es IH]; intros h o Ht; simpl.
  - exists o. split; [reflexivity | exact Ht].
  - destruct (step_tracked e Ht) as (o1 & Hs1 & Ht1).
    destruct (step h e) as [h1 a1]; simpl in *.
    destruct (IH h1 o1 Ht1) as (o2 & Hs2 & Ht2).
    destruct (run h1 es) as [h2 a2]; simpl in *.
    exists o2. split; [|exact Ht2]. now rewrite scan_app, Hs1.
Qed.

Lemma mount_tracked (host : Host) (track : option Track) :
  exists o1, scan false (snd (mount host track)) = Some o1
             /\ tracked o1 (fst (mount host track)).
Proof.
  unfold mount, effect, tracked; simpl.
  destruct track as [t|], (supportsMotion host); simpl;
    eexists; (split; [reflexivity|]); intros Ho;
    try discriminate Ho; split; reflexivity.
Qed.

Lemma life_tracked (host : Host) (track : option Track) (es : list Event) :
  exists o1, scan false (snd (life host track es)) = Some o1
             /\ tracked o1 (fst (life host track es)).
Proof.
  destruct (mount_tracked host track) as (o0 & Hs0 & Ht0).
  unfold life. destruct (mount host track) as [h0 a0]; simpl in *.
  destruct (run_tracked es Ht0) as (o1 & Hs1 & Ht1).
  destruct (run h0 es) as [h1 a1]; simpl in *.
  exists o1. split; [|exact Ht1]. now rewrite scan_app, Hs0.
Qed.

Lemma unmounted_at_last (es : list Event) (h : Hook) :
  mounted (fst (run h (es ++ [Unmount]))) = false.
Proof.
  rewrite run_app; simpl.
  generalize (fst (run h es)) as h1. intros h1.
  unfold step. destruct (mounted h1) eqn:Hm; simpl; [|exact Hm].
  now destruct (cleanups h1).
Qed.

Lemma step_released (h : Hook) (e : Event) :
  (mounted h = false -> audioCtxRef h = false /\ analyserRef h = false) ->
  mounted (fst (step h e)) = false ->
  audioCtxRef (fst (step h e)) = false /\ analyserRef (fst (step h e)) = false.
Proof.
  destruct h as [tr sm d a an so r lp ca mo]; simpl. intros Hr.
  unfold step; simpl. destruct mo; simpl; [clear Hr | exact Hr].
  destruct e as [t | f tm | host' | ]; simpl.
  - unfold cleanup_refs, cleanup_effect, effect, set_track; simpl.
    destruct (negb (same_id t tr)), (negb (same_object t tr)), ca, t, sm;
      simpl; intros Hm; discriminate Hm.
  - destruct lp; simpl; [|intros Hm; discriminate Hm].
    unfold loop; simpl. destruct an; simpl; intros Hm; discriminate Hm.
  - intros Hm; discriminate Hm.
  - unfold cleanups, cleanup_refs, cleanup_effect; simpl.
    destruct ca; simpl; intros _; split; reflexivity.
Qed.

Lemma run_released (es : list Event) : forall h,
  (mounted h = false -> audioCtxRef h = false /\ analyserRef h = false) ->
  mounted (fst (run h es)) = false ->
  audioCtxRef (fst (run h es)) = false /\ analyserRef (fst (run h es)) = false.
Proof.
  induction es as [|e es IH]; intros h Hr; simpl; [exact Hr|].
  pose proof (@step_released h e Hr) as H1.
  destruct (step h e) as [h1 a1]; simpl in *.
  pose proof (IH h1 H1) as H2.
  destruct (run h1 es) as [h2 a2]; simpl in *. exact H2.
Qed.

Lemma life_released (host : Host) (track : option Track) (es : list Event) :
  mounted (fst (life host track es)) = false ->
  audioCtxRef (fst (life host track es)) = false
  /\ analyserRef (fst (life host track es)) = false.
Proof.
  assert (H0 : mounted (fst (mount host track)) = true).
  { unfold mount, effect; simpl.
    destruct track; [destruct (supportsMotion host)|]; reflexivity. }
  unfold life. destruct (mount host track) as [h0 a0]; simpl in *.
  assert (Hr : mounted h0 = false ->
               audioCtxRef h0 = false /\ analyserRef h0 = false)
    by (intros Hm; congruence).
  pose proof (@run_released es h0 Hr) as H1.
  destruct (run h0 es) as [h1 a1]; simpl in *. exact H1.
Qed.

(** A track object is replaced by another that carries the same id, and
    the hook is unmounted: two contexts are created and three close
    requests are made, one by the second effect's cleanup at the
    replacement and two at the unmount. *)
Example same_id_replacement_closes_each_context :
  let trace :=
    snd (life motion_host_on (Some (a_track 1))
           [Render (Some {| track_object := 2; track_id := 1 |}); Unmount]) in
  count NewAudioContext trace = 2%nat
  /\ count CloseAudioContext trace = 3%nat
  /\ scan false trace = Some false.
Proof. repeat split. Qed.

(** X7.  No audio context leaks.  Read from mount on, the trace of any life
    of a hook never creates a context while an earlier one is still open:
    whichever cleanups a track change runs, the context of the previous
    effect run has been asked to close before the next one is created.
    Once the hook is unmounted every context created has been closed, and
    no frame callback is pending. *)
Theorem contexts_are_closed
    (host : Host) (track : option Track) (es : list Event) :
  (exists open, scan false (snd (life host track es)) = Some open)
  /\ scan false (snd (life host track (es ++ [Unmount]))) = Some false
  /\ audioCtxRef (fst (life host track (es ++ [Unmount]))) = false
  /\ loop_pending (fst (life host track (es ++ [Unmount]))) = false.
Proof.
  split.
  { destruct (life_tracked host track es) as (o & Hs & _). now exists o. }
  destruct (life_tracked host track (es ++ [Unmount])) as (o & Hs & Ht).
  pose proof (life_coherent host track (es ++ [Unmount])) as [_ Hc].
  assert (Hm : mounted (fst (life host track (es ++ [Unmount]))) = false).
  { unfold life. destruct (mount host track) as [h0 a0].
    pose proof (unmounted_at_last es h0) as Hu.
    destruct (run h0 (es ++ [Unmount])) as [h1 a1]. exact Hu. }
  destruct (@life_released host track (es ++ [Unmount]) Hm) as [Hctx Han].
  split.
  { destruct o; [|exact Hs].
    destruct (Ht eq_refl) as [_ Hmo]. congruence. }
  split; [exact Hctx|].
  destruct (loop_pending _) eqn:Hl; [|reflexivity].
  destruct (Hc eq_refl) as [Ha _]. congruence.
Qed.

End SamplerFacts.

(** ** The pictures of the radial visualizer *)
Module RendererFacts.
Import AudioAnalyzer AudioAnalyzerFacts RadialVisualizer.
Open Scope R_scope.

Lemma amp_range (data : option AnalyzerData) (i : nat) (a : R) :
  amp data i = Some a -> -1 <= a <= 1.
Proof.
  unfold amp. destruct data as [d|]; [|intros [= <-]; lra].
  destruct (List.length (time d)); [intros [= <-]; lra|].
  destruct (nth_error (time d) _) as [b|]; [|discriminate].
  intros [= <-]. apply normalize_range.
Qed.

Lemma wobble_factor_range (state : AgentState) : 3 <= wobble_factor state <= 8.
Proof. destruct state; simpl; lra. Qed.


(** X10.  The wobble is bounded by the state's factor: every point of a ring's
    path lies within 3 (idle, thinking), 6 (listening) or 8 (speaking)
    pixels of the ring's radius, whatever bytes the sample holds. *)
Theorem wobble_is_bounded
    (baseRadius : R) (data : option AnalyzerData) (state : AgentState)
    (r : nat) :
  Forall (fun p =>
            match p with
            | Some x =>
                Rabs (x - ring_radius (ring baseRadius data state r))
                <= wobble_factor state
            | None => True
            end)
         (ring_path (ring baseRadius data state r))
  /\ wobble_factor state <= 8.
Proof.
  split; [|apply wobble_factor_range].
  unfold ring; cbn [ring_radius ring_path].
  apply Forall_forall. intros p Hp.
  apply in_map_iff in Hp. destruct Hp as (i & <- & _).
  destruct (amp data i) as [a|] eqn:Ha; cbn [option_map]; [|exact I].
  pose proof (amp_range data i Ha) as Hr.
  pose proof (wobble_factor_range state) as Hw.
  apply Rabs_le. split; nra.
Qed.

(** X11.  With a sample present, the path of a ring has a defined point at
    each of the steps 0..127, and at the closing step 128 the index
    [Math.floor((i / steps) * length)] is the length of the buffer, one
    past its end, so the last point of every ring has NaN coordinates. *)
Theorem closing_step_reads_past_the_buffer
    (d : AnalyzerData) (baseRadius : R) (state : AgentState) (r : nat) :
  time d <> [] ->
  (forall i, (i < steps)%nat -> exists a, amp (Some d) i = Some a)
  /\ amp (Some d) steps = None
  /\ nth_error (ring_path (ring baseRadius (Some d) state r)) steps
     = Some None.
Proof.
  intros Hne. unfold steps.
  assert (Hlen : (0 < List.length (time d))%nat).
  { destruct (time d); [contradiction | simpl; lia]. }
  assert (Hlast : amp (Some d) 128 = None).
  { unfold amp, steps. destruct (List.length (time d)) as [|k] eqn:Hk; [lia|].
    rewrite Nat.mul_comm, Nat.div_mul by discriminate.
    assert (Hn : nth_error (time d) (S k) = None).
    { apply nth_error_None. lia. }
    rewrite Hn. reflexivity. }
  split; [|split].
  - intros i Hi. unfold amp, steps.
    destruct (List.length (time d)) as [|k] eqn:Hk; [lia|].
    assert (Hidx : (i * S k / 128 < List.length (time d))%nat).
    { rewrite Hk. apply Nat.Div0.div_lt_upper_bound. nia. }
    destruct (nth_error (time d) (i * S k / 128)) as [b|] eqn:Hb.
    + eexists. reflexivity.
    + apply nth_error_None in Hb. lia.
  - exact Hlast.
  - unfold ring; cbn [ring_path].
    erewrite map_nth_error; [|unfold steps; reflexivity].
    rewrite Hlast. reflexivity.
Qed.

Lemma closing_step_reads_past_the_buffer_witness :
  time (sample [] [x00; xff]) <> []
  /\ amp (Some (sample [] [x00; xff])) steps = None.
Proof.
  assert (Hne : time (sample [] [x00; xff]) <> []) by discriminate.
  split; [exact Hne|].
  exact (proj1 (proj2 (@closing_step_reads_past_the_buffer
                         (sample [] [x00; xff]) 0 idle 0 Hne))).
Defined.

Lemma render_pulse_bounded (w h : R) (o : option AnalyzerData)
    (state : AgentState) :
  sound o -> pulse_bounded w h (render w h o state).
Proof.
  intros Hs. unfold pulse_bounded, render; cbn [pic_glow_radius pic_core_radius].
  assert (Hl : 0 <= level_or_default o <= 1).
  { destruct o as [d|]; simpl in *; [tauto | lra]. }
  split; [lra|]. destruct state; nra.
Qed.

(** X12.  Sampler and renderer together: for every value the hook ever
    returns, with or without a sample, the glow circle has a radius
    between the base radius plus 64 and plus 104, and the core a radius
    between 0.38 and 0.38 plus 14 pixels of the base radius, in every
    state: the picture's pulsing parts cannot grow without bound. *)
Theorem pulse_stays_bounded
    (host : Host) (track : option Track) (es : list Event)
    (w h : R) (state : AgentState) :
  Forall (fun o => pulse_bounded w h (render w h o state))
         (outputs (fst (mount host track)) es).
Proof.
  eapply Forall_impl; [|apply SamplerFacts.outputs_sound].
  intros o. apply render_pulse_bounded.
Qed.

End RendererFacts.

(** ** VoiceInterface: messages, the agent's track, the status header *)
Module InterfaceFacts.
Import VoiceInterface.
Open Scope string_scope.

(** X15.  A state message from a remote participant is applied as it is: when
    the sender is not the local participant and the parsed payload has a
    truthy [state], that value becomes the agent state, and nothing else
    of the component's state changes. *)
Theorem state_message_is_applied
    (local sender : Participant) (data v : JsValue) (st : State) :
  same_participant sender local = false ->
  read_state data = Value v ->
  truthy v = true ->
  handleDataReceived local (Parsed data) (Some sender) st = setAgentState v st
  /\ isListening (handleDataReceived local (Parsed data) (Some sender) st)
     = isListening st
  /\ agentParticipantRef (handleDataReceived local (Parsed data) (Some sender) st)
     = agentParticipantRef st.
Proof.
  intros Hs Hr Hv. unfold handleDataReceived. rewrite Hs, Hr, Hv. simpl.
  repeat split.
Qed.

Lemma state_message_is_applied_witness :
  same_participant agent user = false
  /\ agentState
       (handleDataReceived user
          (Parsed (JsObject [("volume", JsNumber 3); ("state", JsString "thinking")]))
          (Some agent) initial)
     = JsString "thinking".
Proof.
  split; [reflexivity|].
  destruct (@state_message_is_applied user agent
              (JsObject [("volume", JsNumber 3); ("state", JsString "thinking")])
              (JsString "thinking") initial eq_refl eq_refl eq_refl)
    as [H _].
  rewrite H. reflexivity.
Defined.

Lemma find_first (A : Type) (f : A -> bool) (l : list A) :
  match find f l with
  | Some x =>
      exists before after,
        l = (before ++ x :: after)%list /\ f x = true
        /\ forallb (fun y => negb (f y)) before = true
  | None => forallb (fun y => negb (f y)) l = true
  end.
Proof.
  induction l as [|a l IH]; simpl; [reflexivity|].
  destruct (f a) eqn:Ha.
  - exists [], l. repeat split. exact Ha.
  - destruct (find f l) as [x|].
    + destruct IH as (before & after & -> & Hx & Hb).
      exists (a :: before), after. simpl. rewrite Ha. repeat split; auto.
    + simpl. exact IH.
Qed.

(** X16.  The track handed to the analyser is the media track of the first
    track reference that belongs to a participant other than the local
    one, comes from the microphone and has a media track: never the
    user's own microphone, never a camera track.  Without such a
    reference (in particular with no tracks at all) it is [null]. *)
Theorem agent_mic_track_is_first_remote_microphone
    (local : Participant) (tracks : list TrackRef) :
  match agentMicTrack local tracks with
  | Some t =>
      exists before ref after,
        tracks = (before ++ ref :: after)%list
        /\ remote_microphone local ref = true
        /\ track_media ref = Some t
        /\ forallb (fun r => negb (remote_microphone local r)) before = true
  | None => forallb (fun r => negb (remote_microphone local r)) tracks = true
  end.
Proof.
  unfold agentMicTrack.
  pose proof (find_first (remote_microphone local) tracks) as H.
  change (fun t : TrackRef =>
            match participant t, track_media t with
            | Some p, Some _ =>
                negb (same_participant p local) && is_microphone (source t)
            | _, _ => false
            end) with (remote_microphone local).
  destruct (find (remote_microphone local) tracks) as [ref|].
  - destruct H as (before & after & Ht & Hr & Hb).
    destruct (track_media ref) as [t|] eqn:Hm.
    + exists before, ref, after. auto.
    + unfold remote_microphone in Hr. rewrite Hm in Hr.
      destruct (participant ref); discriminate.
  - exact H.
Qed.

(** X17.  The two indicators the header renders, the status text and the
    class of the status dot, agree on what they show.  Both show the idle
    look exactly when [agentState] is ['idle'] or a value outside the four
    states, and each shows the listening, thinking or speaking look
    exactly when [agentState] is that state.  [getStatusColor], which the
    JSX does not call, sorts the values the same way. *)
Theorem status_displays_agree (st : State) :
  let shown := as_AgentState (agentState st) in
  (getStatusText st = "Ready to chat"
   <-> shown = Some RadialVisualizer.idle \/ shown = None)
  /\ (statusDotClass st = "state-idle"
      <-> shown = Some RadialVisualizer.idle \/ shown = None)
  /\ (getStatusColor st = "bg-gray-500"
      <-> shown = Some RadialVisualizer.idle \/ shown = None)
  /\ (getStatusText st = "Listening to you..."
      <-> shown = Some RadialVisualizer.listening)
  /\ (statusDotClass st = "state-listening"
      <-> shown = Some RadialVisualizer.listening)
  /\ (getStatusColor st = "bg-green-500"
      <-> shown = Some RadialVisualizer.listening)
  /\ (getStatusText st = "Processing..."
      <-> shown = Some RadialVisualizer.thinking)
  /\ (statusDotClass st = "state-thinking"
      <-> shown = Some RadialVisualizer.thinking)
  /\ (getStatusColor st = "bg-yellow-500"
      <-> shown = Some RadialVisualizer.thinking)
  /\ (getStatusText st = "Speaking..."
      <-> shown = Some RadialVisualizer.speaking)
  /\ (statusDotClass st = "state-speaking"
      <-> shown = Some RadialVisualizer.speaking)
  /\ (getStatusColor st = "bg-blue-500"
      <-> shown = Some RadialVisualizer.speaking).
Proof.
  unfold getStatusText, getStatusColor, statusDotClass. simpl.
  destruct (as_AgentState (agentState st)) as [[]|];
    repeat split; intros H; try reflexivity; try discriminate H;
    try (destruct H as [H | H]; discriminate H);
    try (left; reflexivity); try (right; reflexivity).
Qed.

End InterfaceFacts.

(** ** VoiceAgent: token requests, retries and views *)
Module SessionFacts.
Import VoiceAgent VoiceAgentFacts.
Open Scope string_scope.

Lemma received_token_not_empty (o : FetchOutcome) (t : string) :
  token_or_error o = inl t -> t <> "".
Proof.
  destruct o as [e | [] status [e | [tok|]]]; simpl; try discriminate.
  destruct (String.eqb_spec tok ""); [discriminate|].
  intros [= <-]. assumption.
Qed.

Lemma step_keeps_token (serverUrl : option string) (st : State) (e : Event) :
  token st <> "" -> token (fst (step serverUrl st e)) <> "".
Proof.
  intros Ht. destruct e as [o| | |reason|m|]; simpl.
  - destruct (pending_fetches st); [exact Ht|]. simpl.
    unfold fetchToken_settles.
    destruct (token_or_error o) as [t|msg] eqn:Ho; simpl; [|exact Ht].
    exact (received_token_not_empty o Ho).
  - destruct (offers_retry _); exact Ht.
  - exact Ht.
  - destruct (shows_room _ && _); exact Ht.
  - destruct (shows_room _); exact Ht.
  - destruct (pending_timers st); exact Ht.
Qed.

(** X18.  A token, once held, is never lost: no event (failed request, room
    error, disconnect, retry, timer) brings the token back to the empty
    string; a later response can only replace it by another non-empty
    token.  So the spinner for a missing token can only be seen before
    the first successful request. *)
Theorem token_is_never_cleared
    (serverUrl : option string) (es : list Event) (st : State) :
  token st <> "" -> token (fst (run serverUrl st es)) <> "".
Proof.
  revert st. induction es as [|e es IH]; intros st Ht; simpl; [exact Ht|].
  pose proof (@step_keeps_token serverUrl st e Ht) as H1.
  destruct (step serverUrl st e) as [st1 a1]; simpl in H1.
  specialize (IH st1 H1).
  destruct (run serverUrl st1 es) as [st2 a2]. exact IH.
Qed.

Lemma token_is_never_cleared_witness :
  token (Page.instance_with "jwt") <> ""
  /\ token (fst (run Page.example_url (Page.instance_with "jwt")
                     [RoomError "lost"; ClickRetry;
                      FetchSettled (FetchResponse false 503 (BodyData None))]))
     <> "".
Proof.
  assert (H : token (Page.instance_with "jwt") <> "") by discriminate.
  split; [exact H|].
  exact (@token_is_never_cleared Page.example_url
           [RoomError "lost"; ClickRetry;
            FetchSettled (FetchResponse false 503 (BodyData None))]
           (Page.instance_with "jwt") H).
Defined.

Lemma step_connecting (serverUrl : option string) (st : State) (e : Event) :
  isConnecting st = false \/ (0 < pending_fetches st)%nat ->
  isConnecting (fst (step serverUrl st e)) = false
  \/ (0 < pending_fetches (fst (step serverUrl st e)))%nat.
Proof.
  intros H. destruct e as [o| | |reason|m|]; simpl.
  - destruct (pending_fetches st) eqn:Hp;
      [simpl; destruct H as [H|H]; [left; exact H | lia]|].
    left. unfold fetchToken_settles. now destruct (token_or_error o).
  - destruct (offers_retry _); [right; simpl; lia | exact H].
  - exact H.
  - destruct (shows_room _ && _); exact H.
  - destruct (shows_room _); exact H.
  - destruct (pending_timers st); [exact H | right; simpl; lia].
Qed.

(** X19.  The spinner of [isConnecting] always has a request behind it: in
    every state the component reaches, if [isConnecting] is set then a
    token request is still in flight, whose end ([finally]) will clear
    it.  (The spinner shown for a missing token has no such guarantee.) *)
Theorem connecting_means_request_in_flight
    (serverUrl : option string) (es : list Event) :
  isConnecting (fst (life serverUrl es)) = false
  \/ (0 < pending_fetches (fst (life serverUrl es)))%nat.
Proof.
  unfold life.
  assert (H0 : isConnecting (fst mount) = false
               \/ (0 < pending_fetches (fst mount))%nat)
    by (right; simpl; lia).
  destruct mount as [st0 a0]; simpl in H0.
  revert st0 H0. induction es as [|e es IH]; intros st0 H0; simpl.
  - exact H0.
  - pose proof (@step_connecting serverUrl st0 e H0) as H1.
    destruct (step serverUrl st0 e) as [st1 a1]; simpl in H1.
    specialize (IH st1 H1).
    destruct (run serverUrl st1 es) as [st2 a2]. exact IH.
Qed.

(** X20.  Retry works from the error view: the click issues one token request
    and shows the spinner, without the old error; when that request
    returns a token the component holds the new token with no error, and
    joins the room with it if a server URL is configured. *)
Theorem retry_then_token_rejoins
    (serverUrl : option string) (st : State) (tok : string) (status : nat) :
  offers_retry (render serverUrl st) = true ->
  tok <> "" ->
  step serverUrl st ClickRetry = fetchToken st
  /\ render serverUrl (fst (fetchToken st)) = LoadingView
  /\ snd (run serverUrl st
            [ClickRetry;
             FetchSettled (FetchResponse true status (BodyData (Some tok)))])
     = [FetchToken roomName]
  /\ token (fst (run serverUrl st
                   [ClickRetry;
                    FetchSettled (FetchResponse true status (BodyData (Some tok)))]))
     = tok
  /\ opens_session
       (render serverUrl
          (fst (run serverUrl st
                  [ClickRetry;
                   FetchSettled (FetchResponse true status (BodyData (Some tok)))])))
     = configured serverUrl.
Proof.
  intros Hr Ht. simpl. rewrite Hr. simpl.
  unfold fetchToken_settles, token_or_error.
  destruct (String.eqb_spec tok "") as [|Hne]; [contradiction|]. simpl.
  repeat split.
  rewrite opens_session_iff. unfold ready; simpl.
  destruct (String.eqb_spec tok ""); [contradiction|].
  simpl. now destruct (configured serverUrl).
Qed.

Lemma retry_then_token_rejoins_witness :
  let failed :=
    fst (run Page.example_url (Page.instance_with "old") [RoomError "lost"]) in
  offers_retry (render Page.example_url failed) = true
  /\ "new" <> ""
  /\ token (fst (run Page.example_url failed
                     [ClickRetry;
                      FetchSettled (FetchResponse true 200 (BodyData (Some "new")))]))
     = "new".
Proof.
  assert (Hne : "new" <> "") by discriminate.
  split; [reflexivity|]. split; [exact Hne|].
  exact (proj1 (proj2 (proj2 (proj2
    (@retry_then_token_rejoins Page.example_url
       (fst (run Page.example_url (Page.instance_with "old") [RoomError "lost"]))
       "new" 200 eq_refl Hne))))).
Defined.

Lemma shows_room_state (serverUrl : option string) (st : State) :
  shows_room (render serverUrl st) = true ->
  isConnecting st = false /\ token st <> "" /\ error st = ""
  /\ configured serverUrl = true.
Proof.
  rewrite render_cases.
  destruct (isConnecting st); [discriminate|].
  destruct (String.eqb_spec (token st) ""); [discriminate|]. simpl.
  destruct (String.eqb_spec (error st) ""); [|discriminate]. simpl.
  destruct (configured serverUrl); [|discriminate]. auto.
Qed.

(** X21.  Reconnection after an unexpected disconnect: when the room is shown
    and it disconnects for a reason other than CLIENT_INITIATED (or for no
    stated reason), one timer of 2000 ms is set and nothing else changes;
    when the timer fires, one token request is issued and the room gives
    way to the spinner.  A disconnect initiated by the client sets no
    timer and changes nothing. *)
Theorem unexpected_disconnect_refetches
    (serverUrl : option string) (st : State)
    (reason : option DisconnectReason) :
  shows_room (render serverUrl st) = true ->
  client_initiated reason = false ->
  snd (step serverUrl st (RoomDisconnected reason)) = [SetTimeout 2000]
  /\ render serverUrl (fst (step serverUrl st (RoomDisconnected reason)))
     = render serverUrl st
  /\ snd (run serverUrl st [RoomDisconnected reason; TimerFired])
     = [SetTimeout 2000; FetchToken roomName]
  /\ render serverUrl
       (fst (run serverUrl st [RoomDisconnected reason; TimerFired]))
     = LoadingView
  /\ step serverUrl st (RoomDisconnected (Some CLIENT_INITIATED)) = (st, []).
Proof.
  intros Hs Hc. simpl. rewrite Hs, Hc. simpl.
  repeat split.
Qed.

Lemma unexpected_disconnect_refetches_witness :
  shows_room (render Page.example_url (Page.instance_with "jwt")) = true
  /\ client_initiated (Some (OtherReason 3)) = false
  /\ snd (run Page.example_url (Page.instance_with "jwt")
             [RoomDisconnected (Some (OtherReason 3)); TimerFired])
     = [SetTimeout 2000; FetchToken roomName].
Proof.
  split; [reflexivity|]. split; [reflexivity|].
  exact (proj1 (proj2 (proj2
    (@unexpected_disconnect_refetches Page.example_url
       (Page.instance_with "jwt") (Some (OtherReason 3)) eq_refl eq_refl)))).
Defined.

(** X22.  A room error takes the room down and offers a retry: when the room
    is shown and [onError] reports a non-empty message, the component
    renders the error view with that message and its retry button, asking
    nothing of the host.  An error with an empty message leaves the room
    view in place. *)
Theorem room_error_shows_error_view
    (serverUrl : option string) (st : State) (message : string) :
  shows_room (render serverUrl st) = true ->
  snd (step serverUrl st (RoomError message)) = []
  /\ (message <> "" ->
      render serverUrl (fst (step serverUrl st (RoomError message)))
      = ErrorView message)
  /\ render serverUrl (fst (step serverUrl st (RoomError "")))
     = render serverUrl st.
Proof.
  intros Hs. destruct (shows_room_state serverUrl st Hs) as (Hc & Ht & He & _).
  simpl. rewrite Hs. simpl. split; [reflexivity|]. split.
  - intros Hm. unfold render; simpl. rewrite Hc.
    destruct (String.eqb_spec (token st) ""); [contradiction|]. simpl.
    destruct (String.eqb_spec message ""); [contradiction | reflexivity].
  - unfold render; simpl. rewrite Hc, He. reflexivity.
Qed.

Lemma room_error_shows_error_view_witness :
  shows_room (render Page.example_url (Page.instance_with "jwt")) = true
  /\ snd (step Page.example_url (Page.instance_with "jwt") (RoomError "lost"))
     = [].
Proof.
  split; [reflexivity|].
  exact (proj1 (@room_error_shows_error_view Page.example_url
                  (Page.instance_with "jwt") "lost" eq_refl)).
Defined.

(** X23.  A failed request of a component that already holds a token: the token
    is kept, the message of the failure is stored, and the error view with
    that message and the retry button is shown (the counterpart, with a
    token, of the spinner that a first failure leaves).  The message of an
    HTTP failure carries the status in decimal. *)
Theorem failure_keeps_token_and_shows_error
    (serverUrl : option string) (st : State) (o : FetchOutcome)
    (message : string) :
  token st <> "" ->
  token_or_error o = inr message ->
  message <> "" ->
  token (fetchToken_settles o st) = token st
  /\ error (fetchToken_settles o st) = message
  /\ render serverUrl (fetchToken_settles o st) = ErrorView message
  /\ forall status body,
       token_or_error (FetchResponse false status body)
       = inr ("Token fetch failed: " ++ decimal status).
Proof.
  intros Ht Ho Hm.
  pose proof (@view_after_failure serverUrl st o message Ho Hm) as Hv.
  destruct (String.eqb_spec (token st) ""); [contradiction|].
  unfold fetchToken_settles in *. rewrite Ho in *. simpl.
  repeat split. exact Hv.
Qed.

Lemma failure_keeps_token_and_shows_error_witness :
  token (Page.instance_with "jwt") <> ""
  /\ render Page.example_url
       (fetchToken_settles (FetchResponse false 503 (BodyData None))
                           (Page.instance_with "jwt"))
     = ErrorView "Token fetch failed: 503".
Proof.
  assert (Ht : token (Page.instance_with "jwt") <> "") by discriminate.
  assert (Hm : "Token fetch failed: 503" <> "") by discriminate.
  split; [exact Ht|].
  exact (proj1 (proj2 (proj2
    (@failure_keeps_token_and_shows_error Page.example_url
       (Page.instance_with "jwt") (FetchResponse false 503 (BodyData None))
       "Token fetch failed: 503" Ht eq_refl Hm)))).
Defined.

(** X24.  Whenever the room is rendered, it is joined with the token the
    component holds, a non-empty one, at the configured server URL, with
    [connect] and [audio] set and [video] off; the [isConnecting] flag is
    then clear and the error message empty.  (A token request may still
    be in flight: the flag is cleared by whichever request settles
    first.) *)
Theorem room_is_joined_with_current_token
    (serverUrl : option string) (st : State) (props : RoomProps) :
  render serverUrl st = RoomView props ->
  room_token props = token st /\ token st <> ""
  /\ serverUrl = Some (room_serverUrl props) /\ room_serverUrl props <> ""
  /\ room_connect props = true /\ room_audio props = true
  /\ room_video props = false
  /\ isConnecting st = false /\ error st = "".
Proof.
  unfold render.
  destruct (isConnecting st); [discriminate|].
  destruct (String.eqb_spec (token st) ""); [discriminate|]. simpl.
  destruct (String.eqb_spec (error st) ""); [|discriminate]. simpl.
  destruct serverUrl as [url|]; [|discriminate].
  destruct (String.eqb_spec url ""); [discriminate|].
  intros [= <-]. simpl. repeat split; auto.
Qed.

Lemma room_is_joined_with_current_token_witness :
  render Page.example_url (Page.instance_with "jwt")
  = RoomView {| room_token := "jwt";
                room_serverUrl := "wss://livekit.example";
                room_connect := true; room_audio := true;
                room_video := false |}
  /\ room_token {| room_token := "jwt";
                   room_serverUrl := "wss://livekit.example";
                   room_connect := true; room_audio := true;
                   room_video := false |}
     = token (Page.instance_with "jwt").
Proof.
  split; [reflexivity|].
  exact (proj1 (@room_is_joined_with_current_token Page.example_url
                  (Page.instance_with "jwt") _ eq_refl)).
Defined.

End SessionFacts.
